(** * crypto-etl-pipeline: a shallow embedding of [pipeline.py]

    The pipeline fetches market data, normalizes it into rows, appends the
    rows to the SQLite table [prices] and exports two CSV reports.  This file
    embeds [normalize_rows], [load_into_sqlite], [export_snapshots],
    [init_db], [run_fetch], [run_analyze] and [main] as functions over an
    explicit world (clock, table, files, log) and proves the properties the
    specification states about them, and further properties of the code.

    Conventions.
    - Python values ([Any]) are the inductive [value]; numbers are rationals
      ([Q]): JSON numbers are finite and the program never computes with
      them, it only tests them for zero and compares them, so an [int] and a
      [float] of the same magnitude are two representations of one number
      ([Qeq]).
    - Strings are the UTF-8 bytes of Python's strings.
    - The table [prices] is the one [CREATE_SQL] declares: its cells have the
      declared column type or are NULL.  The functions named as in the
      source run on a database in which that table exists; [database] and
      the module [Db] add the database file without it.
    - An exception is a value of [exn]; a computation is a function from the
      world to an outcome and a new world. *)

From Stdlib Require Import String Ascii QArith DecimalString.
From stdpp Require Import gmap strings list sorting.

Open Scope string_scope.
Open Scope list_scope.
Local Set Warnings "-register-all".

(** ** Python values *)

Inductive value : Type :=
| VNone
| VBool (b : bool)
| VNum (q : Q)
| VStr (s : string)
| VList (l : list value)
| VDict (d : gmap string value).

Inductive exn : Type :=
| AttributeError
| IntegrityError (constraint : string)
| DatabaseError (message : string).

(** [bool(v)]: [None], [False], zero, and empty containers are falsy. *)
Definition truthy (v : value) : bool :=
  match v with
  | VNone => false
  | VBool b => b
  | VNum q => negb (Qeq_bool q 0)
  | VStr s => negb (String.eqb s "")
  | VList l => match l with [] => false | _ => true end
  | VDict d => negb (bool_decide (d = ∅))
  end.

(** [a or b] *)
Definition py_or (a b : value) : value := if truthy a then a else b.

(** [item.get(key)]: only a mapping has [get]; a missing key gives [None]. *)
Definition py_get (item : value) (key : string) : exn + value :=
  match item with
  | VDict d => inr (default VNone (d !! key))
  | _ => inl AttributeError
  end.

(** Upper-casing of one ASCII character. *)
Definition upper_ascii (c : ascii) : ascii :=
  let n := nat_of_ascii c in
  if (97 <=? n)%nat && (n <=? 122)%nat then ascii_of_nat (n - 32) else c.

(** The characters [str.upper] changes, each with what it becomes (Unicode
    14.0, the tables of Python 3.11): a character may become several
    (ß becomes SS).  [str.upper] maps a string character by character,
    whatever the neighbours; every other character stays as it is. *)
Definition upper_table : list (string * string) :=
  [
   ("a", "A"); ("b", "B"); ("c", "C"); ("d", "D");
   ("e", "E"); ("f", "F"); ("g", "G"); ("h", "H");
   ("i", "I"); ("j", "J"); ("k", "K"); ("l", "L");
   ("m", "M"); ("n", "N"); ("o", "O"); ("p", "P");
   ("q", "Q"); ("r", "R"); ("s", "S"); ("t", "T");
   ("u", "U"); ("v", "V"); ("w", "W"); ("x", "X");
   ("y", "Y"); ("z", "Z"); ("µ", "Μ"); ("ß", "SS");
   ("à", "À"); ("á", "Á"); ("â", "Â"); ("ã", "Ã");
   ("ä", "Ä"); ("å", "Å"); ("æ", "Æ"); ("ç", "Ç");
   ("è", "È"); ("é", "É"); ("ê", "Ê"); ("ë", "Ë");
   ("ì", "Ì"); ("í", "Í"); ("î", "Î"); ("ï", "Ï");
   ("ð", "Ð"); ("ñ", "Ñ"); ("ò", "Ò"); ("ó", "Ó");
   ("ô", "Ô"); ("õ", "Õ"); ("ö", "Ö"); ("ø", "Ø");
   ("ù", "Ù"); ("ú", "Ú"); ("û", "Û"); ("ü", "Ü");
   ("ý", "Ý"); ("þ", "Þ"); ("ÿ", "Ÿ"); ("ā", "Ā");
   ("ă", "Ă"); ("ą", "Ą"); ("ć", "Ć"); ("ĉ", "Ĉ");
   ("ċ", "Ċ"); ("č", "Č"); ("ď", "Ď"); ("đ", "Đ");
   ("ē", "Ē"); ("ĕ", "Ĕ"); ("ė", "Ė"); ("ę", "Ę");
   ("ě", "Ě"); ("ĝ", "Ĝ"); ("ğ", "Ğ"); ("ġ", "Ġ");
   ("ģ", "Ģ"); ("ĥ", "Ĥ"); ("ħ", "Ħ"); ("ĩ", "Ĩ");
   ("ī", "Ī"); ("ĭ", "Ĭ"); ("į", "Į"); ("ı", "I");
   ("ĳ", "Ĳ"); ("ĵ", "Ĵ"); ("ķ", "Ķ"); ("ĺ", "Ĺ");
   ("ļ", "Ļ"); ("ľ", "Ľ"); ("ŀ", "Ŀ"); ("ł", "Ł");
   ("ń", "Ń"); ("ņ", "Ņ"); ("ň", "Ň"); ("ŉ", "ʼN");
   ("ŋ", "Ŋ"); ("ō", "Ō"); ("ŏ", "Ŏ"); ("ő", "Ő");
   ("œ", "Œ"); ("ŕ", "Ŕ"); ("ŗ", "Ŗ"); ("ř", "Ř");
   ("ś", "Ś"); ("ŝ", "Ŝ"); ("ş", "Ş"); ("š", "Š");
   ("ţ", "Ţ"); ("ť", "Ť"); ("ŧ", "Ŧ"); ("ũ", "Ũ");
   ("ū", "Ū"); ("ŭ", "Ŭ"); ("ů", "Ů"); ("ű", "Ű");
   ("ų", "Ų"); ("ŵ", "Ŵ"); ("ŷ", "Ŷ"); ("ź", "Ź");
   ("ż", "Ż"); ("ž", "Ž"); ("ſ", "S"); ("ƀ", "Ƀ");
   ("ƃ", "Ƃ"); ("ƅ", "Ƅ"); ("ƈ", "Ƈ"); ("ƌ", "Ƌ");
   ("ƒ", "Ƒ"); ("ƕ", "Ƕ"); ("ƙ", "Ƙ"); ("ƚ", "Ƚ");
   ("ƞ", "Ƞ"); ("ơ", "Ơ"); ("ƣ", "Ƣ"); ("ƥ", "Ƥ");
   ("ƨ", "Ƨ"); ("ƭ", "Ƭ"); ("ư", "Ư"); ("ƴ", "Ƴ");
   ("ƶ", "Ƶ"); ("ƹ", "Ƹ"); ("ƽ", "Ƽ"); ("ƿ", "Ƿ");
   ("ǅ", "Ǆ"); ("ǆ", "Ǆ"); ("ǈ", "Ǉ"); ("ǉ", "Ǉ");
   ("ǋ", "Ǌ"); ("ǌ", "Ǌ"); ("ǎ", "Ǎ"); ("ǐ", "Ǐ");
   ("ǒ", "Ǒ"); ("ǔ", "Ǔ"); ("ǖ", "Ǖ"); ("ǘ", "Ǘ");
   ("ǚ", "Ǚ"); ("ǜ", "Ǜ"); ("ǝ", "Ǝ"); ("ǟ", "Ǟ");
   ("ǡ", "Ǡ"); ("ǣ", "Ǣ"); ("ǥ", "Ǥ"); ("ǧ", "Ǧ");
   ("ǩ", "Ǩ"); ("ǫ", "Ǫ"); ("ǭ", "Ǭ"); ("ǯ", "Ǯ");
   ("ǰ", "J̌"); ("ǲ", "Ǳ"); ("ǳ", "Ǳ"); ("ǵ", "Ǵ");
   ("ǹ", "Ǹ"); ("ǻ", "Ǻ"); ("ǽ", "Ǽ"); ("ǿ", "Ǿ");
   ("ȁ", "Ȁ"); ("ȃ", "Ȃ"); ("ȅ", "Ȅ"); ("ȇ", "Ȇ");
   ("ȉ", "Ȉ"); ("ȋ", "Ȋ"); ("ȍ", "Ȍ"); ("ȏ", "Ȏ");
   ("ȑ", "Ȑ"); ("ȓ", "Ȓ"); ("ȕ", "Ȕ"); ("ȗ", "Ȗ");
   ("ș", "Ș"); ("ț", "Ț"); ("ȝ", "Ȝ"); ("ȟ", "Ȟ");
   ("ȣ", "Ȣ"); ("ȥ", "Ȥ"); ("ȧ", "Ȧ"); ("ȩ", "Ȩ");
   ("ȫ", "Ȫ"); ("ȭ", "Ȭ"); ("ȯ", "Ȯ"); ("ȱ", "Ȱ");
   ("ȳ", "Ȳ"); ("ȼ", "Ȼ"); ("ȿ", "Ȿ"); ("ɀ", "Ɀ");
   ("ɂ", "Ɂ"); ("ɇ", "Ɇ"); ("ɉ", "Ɉ"); ("ɋ", "Ɋ");
   ("ɍ", "Ɍ"); ("ɏ", "Ɏ"); ("ɐ", "Ɐ"); ("ɑ", "Ɑ");
   ("ɒ", "Ɒ"); ("ɓ", "Ɓ"); ("ɔ", "Ɔ"); ("ɖ", "Ɖ");
   ("ɗ", "Ɗ"); ("ə", "Ə"); ("ɛ", "Ɛ"); ("ɜ", "Ɜ");
   ("ɠ", "Ɠ"); ("ɡ", "Ɡ"); ("ɣ", "Ɣ"); ("ɥ", "Ɥ");
   ("ɦ", "Ɦ"); ("ɨ", "Ɨ"); ("ɩ", "Ɩ"); ("ɪ", "Ɪ");
   ("ɫ", "Ɫ"); ("ɬ", "Ɬ"); ("ɯ", "Ɯ"); ("ɱ", "Ɱ");
   ("ɲ", "Ɲ"); ("ɵ", "Ɵ"); ("ɽ", "Ɽ"); ("ʀ", "Ʀ");
   ("ʂ", "Ʂ"); ("ʃ", "Ʃ"); ("ʇ", "Ʇ"); ("ʈ", "Ʈ");
   ("ʉ", "Ʉ"); ("ʊ", "Ʊ"); ("ʋ", "Ʋ"); ("ʌ", "Ʌ");
   ("ʒ", "Ʒ"); ("ʝ", "Ʝ"); ("ʞ", "Ʞ"); ("ͅ", "Ι");
   ("ͱ", "Ͱ"); ("ͳ", "Ͳ"); ("ͷ", "Ͷ"); ("ͻ", "Ͻ");
   ("ͼ", "Ͼ"); ("ͽ", "Ͽ"); ("ΐ", "Ϊ́"); ("ά", "Ά");
   ("έ", "Έ"); ("ή", "Ή"); ("ί", "Ί"); ("ΰ", "Ϋ́");
   ("α", "Α"); ("β", "Β"); ("γ", "Γ"); ("δ", "Δ");
   ("ε", "Ε"); ("ζ", "Ζ"); ("η", "Η"); ("θ", "Θ");
   ("ι", "Ι"); ("κ", "Κ"); ("λ", "Λ"); ("μ", "Μ");
   ("ν", "Ν"); ("ξ", "Ξ"); ("ο", "Ο"); ("π", "Π");
   ("ρ", "Ρ"); ("ς", "Σ"); ("σ", "Σ"); ("τ", "Τ");
   ("υ", "Υ"); ("φ", "Φ"); ("χ", "Χ"); ("ψ", "Ψ");
   ("ω", "Ω"); ("ϊ", "Ϊ"); ("ϋ", "Ϋ"); ("ό", "Ό");
   ("ύ", "Ύ"); ("ώ", "Ώ"); ("ϐ", "Β"); ("ϑ", "Θ");
   ("ϕ", "Φ"); ("ϖ", "Π"); ("ϗ", "Ϗ"); ("ϙ", "Ϙ");
   ("ϛ", "Ϛ"); ("ϝ", "Ϝ"); ("ϟ", "Ϟ"); ("ϡ", "Ϡ");
   ("ϣ", "Ϣ"); ("ϥ", "Ϥ"); ("ϧ", "Ϧ"); ("ϩ", "Ϩ");
   ("ϫ", "Ϫ"); ("ϭ", "Ϭ"); ("ϯ", "Ϯ"); ("ϰ", "Κ");
   ("ϱ", "Ρ"); ("ϲ", "Ϲ"); ("ϳ", "Ϳ"); ("ϵ", "Ε");
   ("ϸ", "Ϸ"); ("ϻ", "Ϻ"); ("а", "А"); ("б", "Б");
   ("в", "В"); ("г", "Г"); ("д", "Д"); ("е", "Е");
   ("ж", "Ж"); ("з", "З"); ("и", "И"); ("й", "Й");
   ("к", "К"); ("л", "Л"); ("м", "М"); ("н", "Н");
   ("о", "О"); ("п", "П"); ("р", "Р"); ("с", "С");
   ("т", "Т"); ("у", "У"); ("ф", "Ф"); ("х", "Х");
   ("ц", "Ц"); ("ч", "Ч"); ("ш", "Ш"); ("щ", "Щ");
   ("ъ", "Ъ"); ("ы", "Ы"); ("ь", "Ь"); ("э", "Э");
   ("ю", "Ю"); ("я", "Я"); ("ѐ", "Ѐ"); ("ё", "Ё");
   ("ђ", "Ђ"); ("ѓ", "Ѓ"); ("є", "Є"); ("ѕ", "Ѕ");
   ("і", "І"); ("ї", "Ї"); ("ј", "Ј"); ("љ", "Љ");
   ("њ", "Њ"); ("ћ", "Ћ"); ("ќ", "Ќ"); ("ѝ", "Ѝ");
   ("ў", "Ў"); ("џ", "Џ"); ("ѡ", "Ѡ"); ("ѣ", "Ѣ");
   ("ѥ", "Ѥ"); ("ѧ", "Ѧ"); ("ѩ", "Ѩ"); ("ѫ", "Ѫ");
   ("ѭ", "Ѭ"); ("ѯ", "Ѯ"); ("ѱ", "Ѱ"); ("ѳ", "Ѳ");
   ("ѵ", "Ѵ"); ("ѷ", "Ѷ"); ("ѹ", "Ѹ"); ("ѻ", "Ѻ");
   ("ѽ", "Ѽ"); ("ѿ", "Ѿ"); ("ҁ", "Ҁ"); ("ҋ", "Ҋ");
   ("ҍ", "Ҍ"); ("ҏ", "Ҏ"); ("ґ", "Ґ"); ("ғ", "Ғ");
   ("ҕ", "Ҕ"); ("җ", "Җ"); ("ҙ", "Ҙ"); ("қ", "Қ");
   ("ҝ", "Ҝ"); ("ҟ", "Ҟ"); ("ҡ", "Ҡ"); ("ң", "Ң");
   ("ҥ", "Ҥ"); ("ҧ", "Ҧ"); ("ҩ", "Ҩ"); ("ҫ", "Ҫ");
   ("ҭ", "Ҭ"); ("ү", "Ү"); ("ұ", "Ұ"); ("ҳ", "Ҳ");
   ("ҵ", "Ҵ"); ("ҷ", "Ҷ"); ("ҹ", "Ҹ"); ("һ", "Һ");
   ("ҽ", "Ҽ"); ("ҿ", "Ҿ"); ("ӂ", "Ӂ"); ("ӄ", "Ӄ");
   ("ӆ", "Ӆ"); ("ӈ", "Ӈ"); ("ӊ", "Ӊ"); ("ӌ", "Ӌ");
   ("ӎ", "Ӎ"); ("ӏ", "Ӏ"); ("ӑ", "Ӑ"); ("ӓ", "Ӓ");
   ("ӕ", "Ӕ"); ("ӗ", "Ӗ"); ("ә", "Ә"); ("ӛ", "Ӛ");
   ("ӝ", "Ӝ"); ("ӟ", "Ӟ"); ("ӡ", "Ӡ"); ("ӣ", "Ӣ");
   ("ӥ", "Ӥ"); ("ӧ", "Ӧ"); ("ө", "Ө"); ("ӫ", "Ӫ");
   ("ӭ", "Ӭ"); ("ӯ", "Ӯ"); ("ӱ", "Ӱ"); ("ӳ", "Ӳ");
   ("ӵ", "Ӵ"); ("ӷ", "Ӷ"); ("ӹ", "Ӹ"); ("ӻ", "Ӻ");
   ("ӽ", "Ӽ"); ("ӿ", "Ӿ"); ("ԁ", "Ԁ"); ("ԃ", "Ԃ");
   ("ԅ", "Ԅ"); ("ԇ", "Ԇ"); ("ԉ", "Ԉ"); ("ԋ", "Ԋ");
   ("ԍ", "Ԍ"); ("ԏ", "Ԏ"); ("ԑ", "Ԑ"); ("ԓ", "Ԓ");
   ("ԕ", "Ԕ"); ("ԗ", "Ԗ"); ("ԙ", "Ԙ"); ("ԛ", "Ԛ");
   ("ԝ", "Ԝ"); ("ԟ", "Ԟ"); ("ԡ", "Ԡ"); ("ԣ", "Ԣ");
   ("ԥ", "Ԥ"); ("ԧ", "Ԧ"); ("ԩ", "Ԩ"); ("ԫ", "Ԫ");
   ("ԭ", "Ԭ"); ("ԯ", "Ԯ"); ("ա", "Ա"); ("բ", "Բ");
   ("գ", "Գ"); ("դ", "Դ"); ("ե", "Ե"); ("զ", "Զ");
   ("է", "Է"); ("ը", "Ը"); ("թ", "Թ"); ("ժ", "Ժ");
   ("ի", "Ի"); ("լ", "Լ"); ("խ", "Խ"); ("ծ", "Ծ");
   ("կ", "Կ"); ("հ", "Հ"); ("ձ", "Ձ"); ("ղ", "Ղ");
   ("ճ", "Ճ"); ("մ", "Մ"); ("յ", "Յ"); ("ն", "Ն");
   ("շ", "Շ"); ("ո", "Ո"); ("չ", "Չ"); ("պ", "Պ");
   ("ջ", "Ջ"); ("ռ", "Ռ"); ("ս", "Ս"); ("վ", "Վ");
   ("տ", "Տ"); ("ր", "Ր"); ("ց", "Ց"); ("ւ", "Ւ");
   ("փ", "Փ"); ("ք", "Ք"); ("օ", "Օ"); ("ֆ", "Ֆ");
   ("և", "ԵՒ"); ("ა", "Ა"); ("ბ", "Ბ"); ("გ", "Გ");
   ("დ", "Დ"); ("ე", "Ე"); ("ვ", "Ვ"); ("ზ", "Ზ");
   ("თ", "Თ"); ("ი", "Ი"); ("კ", "Კ"); ("ლ", "Ლ");
   ("მ", "Მ"); ("ნ", "Ნ"); ("ო", "Ო"); ("პ", "Პ");
   ("ჟ", "Ჟ"); ("რ", "Რ"); ("ს", "Ს"); ("ტ", "Ტ");
   ("უ", "Უ"); ("ფ", "Ფ"); ("ქ", "Ქ"); ("ღ", "Ღ");
   ("ყ", "Ყ"); ("შ", "Შ"); ("ჩ", "Ჩ"); ("ც", "Ც");
   ("ძ", "Ძ"); ("წ", "Წ"); ("ჭ", "Ჭ"); ("ხ", "Ხ");
   ("ჯ", "Ჯ"); ("ჰ", "Ჰ"); ("ჱ", "Ჱ"); ("ჲ", "Ჲ");
   ("ჳ", "Ჳ"); ("ჴ", "Ჴ"); ("ჵ", "Ჵ"); ("ჶ", "Ჶ");
   ("ჷ", "Ჷ"); ("ჸ", "Ჸ"); ("ჹ", "Ჹ"); ("ჺ", "Ჺ");
   ("ჽ", "Ჽ"); ("ჾ", "Ჾ"); ("ჿ", "Ჿ"); ("ᏸ", "Ᏸ");
   ("ᏹ", "Ᏹ"); ("ᏺ", "Ᏺ"); ("ᏻ", "Ᏻ"); ("ᏼ", "Ᏼ");
   ("ᏽ", "Ᏽ"); ("ᲀ", "В"); ("ᲁ", "Д"); ("ᲂ", "О");
   ("ᲃ", "С"); ("ᲄ", "Т"); ("ᲅ", "Т"); ("ᲆ", "Ъ");
   ("ᲇ", "Ѣ"); ("ᲈ", "Ꙋ"); ("ᵹ", "Ᵹ"); ("ᵽ", "Ᵽ");
   ("ᶎ", "Ᶎ"); ("ḁ", "Ḁ"); ("ḃ", "Ḃ"); ("ḅ", "Ḅ");
   ("ḇ", "Ḇ"); ("ḉ", "Ḉ"); ("ḋ", "Ḋ"); ("ḍ", "Ḍ");
   ("ḏ", "Ḏ"); ("ḑ", "Ḑ"); ("ḓ", "Ḓ"); ("ḕ", "Ḕ");
   ("ḗ", "Ḗ"); ("ḙ", "Ḙ"); ("ḛ", "Ḛ"); ("ḝ", "Ḝ");
   ("ḟ", "Ḟ"); ("ḡ", "Ḡ"); ("ḣ", "Ḣ"); ("ḥ", "Ḥ");
   ("ḧ", "Ḧ"); ("ḩ", "Ḩ"); ("ḫ", "Ḫ"); ("ḭ", "Ḭ");
   ("ḯ", "Ḯ"); ("ḱ", "Ḱ"); ("ḳ", "Ḳ"); ("ḵ", "Ḵ");
   ("ḷ", "Ḷ"); ("ḹ", "Ḹ"); ("ḻ", "Ḻ"); ("ḽ", "Ḽ");
   ("ḿ", "Ḿ"); ("ṁ", "Ṁ"); ("ṃ", "Ṃ"); ("ṅ", "Ṅ");
   ("ṇ", "Ṇ"); ("ṉ", "Ṉ"); ("ṋ", "Ṋ"); ("ṍ", "Ṍ");
   ("ṏ", "Ṏ"); ("ṑ", "Ṑ"); ("ṓ", "Ṓ"); ("ṕ", "Ṕ");
   ("ṗ", "Ṗ"); ("ṙ", "Ṙ"); ("ṛ", "Ṛ"); ("ṝ", "Ṝ");
   ("ṟ", "Ṟ"); ("ṡ", "Ṡ"); ("ṣ", "Ṣ"); ("ṥ", "Ṥ");
   ("ṧ", "Ṧ"); ("ṩ", "Ṩ"); ("ṫ", "Ṫ"); ("ṭ", "Ṭ");
   ("ṯ", "Ṯ"); ("ṱ", "Ṱ"); ("ṳ", "Ṳ"); ("ṵ", "Ṵ");
   ("ṷ", "Ṷ"); ("ṹ", "Ṹ"); ("ṻ", "Ṻ"); ("ṽ", "Ṽ");
   ("ṿ", "Ṿ"); ("ẁ", "Ẁ"); ("ẃ", "Ẃ"); ("ẅ", "Ẅ");
   ("ẇ", "Ẇ"); ("ẉ", "Ẉ"); ("ẋ", "Ẋ"); ("ẍ", "Ẍ");
   ("ẏ", "Ẏ"); ("ẑ", "Ẑ"); ("ẓ", "Ẓ"); ("ẕ", "Ẕ");
   ("ẖ", "H̱"); ("ẗ", "T̈"); ("ẘ", "W̊"); ("ẙ", "Y̊");
   ("ẚ", "Aʾ"); ("ẛ", "Ṡ"); ("ạ", "Ạ"); ("ả", "Ả");
   ("ấ", "Ấ"); ("ầ", "Ầ"); ("ẩ", "Ẩ"); ("ẫ", "Ẫ");
   ("ậ", "Ậ"); ("ắ", "Ắ"); ("ằ", "Ằ"); ("ẳ", "Ẳ");
   ("ẵ", "Ẵ"); ("ặ", "Ặ"); ("ẹ", "Ẹ"); ("ẻ", "Ẻ");
   ("ẽ", "Ẽ"); ("ế", "Ế"); ("ề", "Ề"); ("ể", "Ể");
   ("ễ", "Ễ"); ("ệ", "Ệ"); ("ỉ", "Ỉ"); ("ị", "Ị");
   ("ọ", "Ọ"); ("ỏ", "Ỏ"); ("ố", "Ố"); ("ồ", "Ồ");
   ("ổ", "Ổ"); ("ỗ", "Ỗ"); ("ộ", "Ộ"); ("ớ", "Ớ");
   ("ờ", "Ờ"); ("ở", "Ở"); ("ỡ", "Ỡ"); ("ợ", "Ợ");
   ("ụ", "Ụ"); ("ủ", "Ủ"); ("ứ", "Ứ"); ("ừ", "Ừ");
   ("ử", "Ử"); ("ữ", "Ữ"); ("ự", "Ự"); ("ỳ", "Ỳ");
   ("ỵ", "Ỵ"); ("ỷ", "Ỷ"); ("ỹ", "Ỹ"); ("ỻ", "Ỻ");
   ("ỽ", "Ỽ"); ("ỿ", "Ỿ"); ("ἀ", "Ἀ"); ("ἁ", "Ἁ");
   ("ἂ", "Ἂ"); ("ἃ", "Ἃ"); ("ἄ", "Ἄ"); ("ἅ", "Ἅ");
   ("ἆ", "Ἆ"); ("ἇ", "Ἇ"); ("ἐ", "Ἐ"); ("ἑ", "Ἑ");
   ("ἒ", "Ἒ"); ("ἓ", "Ἓ"); ("ἔ", "Ἔ"); ("ἕ", "Ἕ");
   ("ἠ", "Ἠ"); ("ἡ", "Ἡ"); ("ἢ", "Ἢ"); ("ἣ", "Ἣ");
   ("ἤ", "Ἤ"); ("ἥ", "Ἥ"); ("ἦ", "Ἦ"); ("ἧ", "Ἧ");
   ("ἰ", "Ἰ"); ("ἱ", "Ἱ"); ("ἲ", "Ἲ"); ("ἳ", "Ἳ");
   ("ἴ", "Ἴ"); ("ἵ", "Ἵ"); ("ἶ", "Ἶ"); ("ἷ", "Ἷ");
   ("ὀ", "Ὀ"); ("ὁ", "Ὁ"); ("ὂ", "Ὂ"); ("ὃ", "Ὃ");
   ("ὄ", "Ὄ"); ("ὅ", "Ὅ"); ("ὐ", "Υ̓"); ("ὑ", "Ὑ");
   ("ὒ", "Υ̓̀"); ("ὓ", "Ὓ"); ("ὔ", "Υ̓́"); ("ὕ", "Ὕ");
   ("ὖ", "Υ̓͂"); ("ὗ", "Ὗ"); ("ὠ", "Ὠ"); ("ὡ", "Ὡ");
   ("ὢ", "Ὢ"); ("ὣ", "Ὣ"); ("ὤ", "Ὤ"); ("ὥ", "Ὥ");
   ("ὦ", "Ὦ"); ("ὧ", "Ὧ"); ("ὰ", "Ὰ"); ("ά", "Ά");
   ("ὲ", "Ὲ"); ("έ", "Έ"); ("ὴ", "Ὴ"); ("ή", "Ή");
   ("ὶ", "Ὶ"); ("ί", "Ί"); ("ὸ", "Ὸ"); ("ό", "Ό");
   ("ὺ", "Ὺ"); ("ύ", "Ύ"); ("ὼ", "Ὼ"); ("ώ", "Ώ");
   ("ᾀ", "ἈΙ"); ("ᾁ", "ἉΙ"); ("ᾂ", "ἊΙ"); ("ᾃ", "ἋΙ");
   ("ᾄ", "ἌΙ"); ("ᾅ", "ἍΙ"); ("ᾆ", "ἎΙ"); ("ᾇ", "ἏΙ");
   ("ᾈ", "ἈΙ"); ("ᾉ", "ἉΙ"); ("ᾊ", "ἊΙ"); ("ᾋ", "ἋΙ");
   ("ᾌ", "ἌΙ"); ("ᾍ", "ἍΙ"); ("ᾎ", "ἎΙ"); ("ᾏ", "ἏΙ");
   ("ᾐ", "ἨΙ"); ("ᾑ", "ἩΙ"); ("ᾒ", "ἪΙ"); ("ᾓ", "ἫΙ");
   ("ᾔ", "ἬΙ"); ("ᾕ", "ἭΙ"); ("ᾖ", "ἮΙ"); ("ᾗ", "ἯΙ");
   ("ᾘ", "ἨΙ"); ("ᾙ", "ἩΙ"); ("ᾚ", "ἪΙ"); ("ᾛ", "ἫΙ");
   ("ᾜ", "ἬΙ"); ("ᾝ", "ἭΙ"); ("ᾞ", "ἮΙ"); ("ᾟ", "ἯΙ");
   ("ᾠ", "ὨΙ"); ("ᾡ", "ὩΙ"); ("ᾢ", "ὪΙ"); ("ᾣ", "ὫΙ");
   ("ᾤ", "ὬΙ"); ("ᾥ", "ὭΙ"); ("ᾦ", "ὮΙ"); ("ᾧ", "ὯΙ");
   ("ᾨ", "ὨΙ"); ("ᾩ", "ὩΙ"); ("ᾪ", "ὪΙ"); ("ᾫ", "ὫΙ");
   ("ᾬ", "ὬΙ"); ("ᾭ", "ὭΙ"); ("ᾮ", "ὮΙ"); ("ᾯ", "ὯΙ");
   ("ᾰ", "Ᾰ"); ("ᾱ", "Ᾱ"); ("ᾲ", "ᾺΙ"); ("ᾳ", "ΑΙ");
   ("ᾴ", "ΆΙ"); ("ᾶ", "Α͂"); ("ᾷ", "Α͂Ι"); ("ᾼ", "ΑΙ");
   ("ι", "Ι"); ("ῂ", "ῊΙ"); ("ῃ", "ΗΙ"); ("ῄ", "ΉΙ");
   ("ῆ", "Η͂"); ("ῇ", "Η͂Ι"); ("ῌ", "ΗΙ"); ("ῐ", "Ῐ");
   ("ῑ", "Ῑ"); ("ῒ", "Ϊ̀"); ("ΐ", "Ϊ́"); ("ῖ", "Ι͂");
   ("ῗ", "Ϊ͂"); ("ῠ", "Ῠ"); ("ῡ", "Ῡ"); ("ῢ", "Ϋ̀");
   ("ΰ", "Ϋ́"); ("ῤ", "Ρ̓"); ("ῥ", "Ῥ"); ("ῦ", "Υ͂");
   ("ῧ", "Ϋ͂"); ("ῲ", "ῺΙ"); ("ῳ", "ΩΙ"); ("ῴ", "ΏΙ");
   ("ῶ", "Ω͂"); ("ῷ", "Ω͂Ι"); ("ῼ", "ΩΙ"); ("ⅎ", "Ⅎ");
   ("ⅰ", "Ⅰ"); ("ⅱ", "Ⅱ"); ("ⅲ", "Ⅲ"); ("ⅳ", "Ⅳ");
   ("ⅴ", "Ⅴ"); ("ⅵ", "Ⅵ"); ("ⅶ", "Ⅶ"); ("ⅷ", "Ⅷ");
   ("ⅸ", "Ⅸ"); ("ⅹ", "Ⅹ"); ("ⅺ", "Ⅺ"); ("ⅻ", "Ⅻ");
   ("ⅼ", "Ⅼ"); ("ⅽ", "Ⅽ"); ("ⅾ", "Ⅾ"); ("ⅿ", "Ⅿ");
   ("ↄ", "Ↄ"); ("ⓐ", "Ⓐ"); ("ⓑ", "Ⓑ"); ("ⓒ", "Ⓒ");
   ("ⓓ", "Ⓓ"); ("ⓔ", "Ⓔ"); ("ⓕ", "Ⓕ"); ("ⓖ", "Ⓖ");
   ("ⓗ", "Ⓗ"); ("ⓘ", "Ⓘ"); ("ⓙ", "Ⓙ"); ("ⓚ", "Ⓚ");
   ("ⓛ", "Ⓛ"); ("ⓜ", "Ⓜ"); ("ⓝ", "Ⓝ"); ("ⓞ", "Ⓞ");
   ("ⓟ", "Ⓟ"); ("ⓠ", "Ⓠ"); ("ⓡ", "Ⓡ"); ("ⓢ", "Ⓢ");
   ("ⓣ", "Ⓣ"); ("ⓤ", "Ⓤ"); ("ⓥ", "Ⓥ"); ("ⓦ", "Ⓦ");
   ("ⓧ", "Ⓧ"); ("ⓨ", "Ⓨ"); ("ⓩ", "Ⓩ"); ("ⰰ", "Ⰰ");
   ("ⰱ", "Ⰱ"); ("ⰲ", "Ⰲ"); ("ⰳ", "Ⰳ"); ("ⰴ", "Ⰴ");
   ("ⰵ", "Ⰵ"); ("ⰶ", "Ⰶ"); ("ⰷ", "Ⰷ"); ("ⰸ", "Ⰸ");
   ("ⰹ", "Ⰹ"); ("ⰺ", "Ⰺ"); ("ⰻ", "Ⰻ"); ("ⰼ", "Ⰼ");
   ("ⰽ", "Ⰽ"); ("ⰾ", "Ⰾ"); ("ⰿ", "Ⰿ"); ("ⱀ", "Ⱀ");
   ("ⱁ", "Ⱁ"); ("ⱂ", "Ⱂ"); ("ⱃ", "Ⱃ"); ("ⱄ", "Ⱄ");
   ("ⱅ", "Ⱅ"); ("ⱆ", "Ⱆ"); ("ⱇ", "Ⱇ"); ("ⱈ", "Ⱈ");
   ("ⱉ", "Ⱉ"); ("ⱊ", "Ⱊ"); ("ⱋ", "Ⱋ"); ("ⱌ", "Ⱌ");
   ("ⱍ", "Ⱍ"); ("ⱎ", "Ⱎ"); ("ⱏ", "Ⱏ"); ("ⱐ", "Ⱐ");
   ("ⱑ", "Ⱑ"); ("ⱒ", "Ⱒ"); ("ⱓ", "Ⱓ"); ("ⱔ", "Ⱔ");
   ("ⱕ", "Ⱕ"); ("ⱖ", "Ⱖ"); ("ⱗ", "Ⱗ"); ("ⱘ", "Ⱘ");
   ("ⱙ", "Ⱙ"); ("ⱚ", "Ⱚ"); ("ⱛ", "Ⱛ"); ("ⱜ", "Ⱜ");
   ("ⱝ", "Ⱝ"); ("ⱞ", "Ⱞ"); ("ⱟ", "Ⱟ"); ("ⱡ", "Ⱡ");
   ("ⱥ", "Ⱥ"); ("ⱦ", "Ⱦ"); ("ⱨ", "Ⱨ"); ("ⱪ", "Ⱪ");
   ("ⱬ", "Ⱬ"); ("ⱳ", "Ⱳ"); ("ⱶ", "Ⱶ"); ("ⲁ", "Ⲁ");
   ("ⲃ", "Ⲃ"); ("ⲅ", "Ⲅ"); ("ⲇ", "Ⲇ"); ("ⲉ", "Ⲉ");
   ("ⲋ", "Ⲋ"); ("ⲍ", "Ⲍ"); ("ⲏ", "Ⲏ"); ("ⲑ", "Ⲑ");
   ("ⲓ", "Ⲓ"); ("ⲕ", "Ⲕ"); ("ⲗ", "Ⲗ"); ("ⲙ", "Ⲙ");
   ("ⲛ", "Ⲛ"); ("ⲝ", "Ⲝ"); ("ⲟ", "Ⲟ"); ("ⲡ", "Ⲡ");
   ("ⲣ", "Ⲣ"); ("ⲥ", "Ⲥ"); ("ⲧ", "Ⲧ"); ("ⲩ", "Ⲩ");
   ("ⲫ", "Ⲫ"); ("ⲭ", "Ⲭ"); ("ⲯ", "Ⲯ"); ("ⲱ", "Ⲱ");
   ("ⲳ", "Ⲳ"); ("ⲵ", "Ⲵ"); ("ⲷ", "Ⲷ"); ("ⲹ", "Ⲹ");
   ("ⲻ", "Ⲻ"); ("ⲽ", "Ⲽ"); ("ⲿ", "Ⲿ"); ("ⳁ", "Ⳁ");
   ("ⳃ", "Ⳃ"); ("ⳅ", "Ⳅ"); ("ⳇ", "Ⳇ"); ("ⳉ", "Ⳉ");
   ("ⳋ", "Ⳋ"); ("ⳍ", "Ⳍ"); ("ⳏ", "Ⳏ"); ("ⳑ", "Ⳑ");
   ("ⳓ", "Ⳓ"); ("ⳕ", "Ⳕ"); ("ⳗ", "Ⳗ"); ("ⳙ", "Ⳙ");
   ("ⳛ", "Ⳛ"); ("ⳝ", "Ⳝ"); ("ⳟ", "Ⳟ"); ("ⳡ", "Ⳡ");
   ("ⳣ", "Ⳣ"); ("ⳬ", "Ⳬ"); ("ⳮ", "Ⳮ"); ("ⳳ", "Ⳳ");
   ("ⴀ", "Ⴀ"); ("ⴁ", "Ⴁ"); ("ⴂ", "Ⴂ"); ("ⴃ", "Ⴃ");
   ("ⴄ", "Ⴄ"); ("ⴅ", "Ⴅ"); ("ⴆ", "Ⴆ"); ("ⴇ", "Ⴇ");
   ("ⴈ", "Ⴈ"); ("ⴉ", "Ⴉ"); ("ⴊ", "Ⴊ"); ("ⴋ", "Ⴋ");
   ("ⴌ", "Ⴌ"); ("ⴍ", "Ⴍ"); ("ⴎ", "Ⴎ"); ("ⴏ", "Ⴏ");
   ("ⴐ", "Ⴐ"); ("ⴑ", "Ⴑ"); ("ⴒ", "Ⴒ"); ("ⴓ", "Ⴓ");
   ("ⴔ", "Ⴔ"); ("ⴕ", "Ⴕ"); ("ⴖ", "Ⴖ"); ("ⴗ", "Ⴗ");
   ("ⴘ", "Ⴘ"); ("ⴙ", "Ⴙ"); ("ⴚ", "Ⴚ"); ("ⴛ", "Ⴛ");
   ("ⴜ", "Ⴜ"); ("ⴝ", "Ⴝ"); ("ⴞ", "Ⴞ"); ("ⴟ", "Ⴟ");
   ("ⴠ", "Ⴠ"); ("ⴡ", "Ⴡ"); ("ⴢ", "Ⴢ"); ("ⴣ", "Ⴣ");
   ("ⴤ", "Ⴤ"); ("ⴥ", "Ⴥ"); ("ⴧ", "Ⴧ"); ("ⴭ", "Ⴭ");
   ("ꙁ", "Ꙁ"); ("ꙃ", "Ꙃ"); ("ꙅ", "Ꙅ"); ("ꙇ", "Ꙇ");
   ("ꙉ", "Ꙉ"); ("ꙋ", "Ꙋ"); ("ꙍ", "Ꙍ"); ("ꙏ", "Ꙏ");
   ("ꙑ", "Ꙑ"); ("ꙓ", "Ꙓ"); ("ꙕ", "Ꙕ"); ("ꙗ", "Ꙗ");
   ("ꙙ", "Ꙙ"); ("ꙛ", "Ꙛ"); ("ꙝ", "Ꙝ"); ("ꙟ", "Ꙟ");
   ("ꙡ", "Ꙡ"); ("ꙣ", "Ꙣ"); ("ꙥ", "Ꙥ"); ("ꙧ", "Ꙧ");
   ("ꙩ", "Ꙩ"); ("ꙫ", "Ꙫ"); ("ꙭ", "Ꙭ"); ("ꚁ", "Ꚁ");
   ("ꚃ", "Ꚃ"); ("ꚅ", "Ꚅ"); ("ꚇ", "Ꚇ"); ("ꚉ", "Ꚉ");
   ("ꚋ", "Ꚋ"); ("ꚍ", "Ꚍ"); ("ꚏ", "Ꚏ"); ("ꚑ", "Ꚑ");
   ("ꚓ", "Ꚓ"); ("ꚕ", "Ꚕ"); ("ꚗ", "Ꚗ"); ("ꚙ", "Ꚙ");
   ("ꚛ", "Ꚛ"); ("ꜣ", "Ꜣ"); ("ꜥ", "Ꜥ"); ("ꜧ", "Ꜧ");
   ("ꜩ", "Ꜩ"); ("ꜫ", "Ꜫ"); ("ꜭ", "Ꜭ"); ("ꜯ", "Ꜯ");
   ("ꜳ", "Ꜳ"); ("ꜵ", "Ꜵ"); ("ꜷ", "Ꜷ"); ("ꜹ", "Ꜹ");
   ("ꜻ", "Ꜻ"); ("ꜽ", "Ꜽ"); ("ꜿ", "Ꜿ"); ("ꝁ", "Ꝁ");
   ("ꝃ", "Ꝃ"); ("ꝅ", "Ꝅ"); ("ꝇ", "Ꝇ"); ("ꝉ", "Ꝉ");
   ("ꝋ", "Ꝋ"); ("ꝍ", "Ꝍ"); ("ꝏ", "Ꝏ"); ("ꝑ", "Ꝑ");
   ("ꝓ", "Ꝓ"); ("ꝕ", "Ꝕ"); ("ꝗ", "Ꝗ"); ("ꝙ", "Ꝙ");
   ("ꝛ", "Ꝛ"); ("ꝝ", "Ꝝ"); ("ꝟ", "Ꝟ"); ("ꝡ", "Ꝡ");
   ("ꝣ", "Ꝣ"); ("ꝥ", "Ꝥ"); ("ꝧ", "Ꝧ"); ("ꝩ", "Ꝩ");
   ("ꝫ", "Ꝫ"); ("ꝭ", "Ꝭ"); ("ꝯ", "Ꝯ"); ("ꝺ", "Ꝺ");
   ("ꝼ", "Ꝼ"); ("ꝿ", "Ꝿ"); ("ꞁ", "Ꞁ"); ("ꞃ", "Ꞃ");
   ("ꞅ", "Ꞅ"); ("ꞇ", "Ꞇ"); ("ꞌ", "Ꞌ"); ("ꞑ", "Ꞑ");
   ("ꞓ", "Ꞓ"); ("ꞔ", "Ꞔ"); ("ꞗ", "Ꞗ"); ("ꞙ", "Ꞙ");
   ("ꞛ", "Ꞛ"); ("ꞝ", "Ꞝ"); ("ꞟ", "Ꞟ"); ("ꞡ", "Ꞡ");
   ("ꞣ", "Ꞣ"); ("ꞥ", "Ꞥ"); ("ꞧ", "Ꞧ"); ("ꞩ", "Ꞩ");
   ("ꞵ", "Ꞵ"); ("ꞷ", "Ꞷ"); ("ꞹ", "Ꞹ"); ("ꞻ", "Ꞻ");
   ("ꞽ", "Ꞽ"); ("ꞿ", "Ꞿ"); ("ꟁ", "Ꟁ"); ("ꟃ", "Ꟃ");
   ("ꟈ", "Ꟈ"); ("ꟊ", "Ꟊ"); ("ꟑ", "Ꟑ"); ("ꟗ", "Ꟗ");
   ("ꟙ", "Ꟙ"); ("ꟶ", "Ꟶ"); ("ꭓ", "Ꭓ"); ("ꭰ", "Ꭰ");
   ("ꭱ", "Ꭱ"); ("ꭲ", "Ꭲ"); ("ꭳ", "Ꭳ"); ("ꭴ", "Ꭴ");
   ("ꭵ", "Ꭵ"); ("ꭶ", "Ꭶ"); ("ꭷ", "Ꭷ"); ("ꭸ", "Ꭸ");
   ("ꭹ", "Ꭹ"); ("ꭺ", "Ꭺ"); ("ꭻ", "Ꭻ"); ("ꭼ", "Ꭼ");
   ("ꭽ", "Ꭽ"); ("ꭾ", "Ꭾ"); ("ꭿ", "Ꭿ"); ("ꮀ", "Ꮀ");
   ("ꮁ", "Ꮁ"); ("ꮂ", "Ꮂ"); ("ꮃ", "Ꮃ"); ("ꮄ", "Ꮄ");
   ("ꮅ", "Ꮅ"); ("ꮆ", "Ꮆ"); ("ꮇ", "Ꮇ"); ("ꮈ", "Ꮈ");
   ("ꮉ", "Ꮉ"); ("ꮊ", "Ꮊ"); ("ꮋ", "Ꮋ"); ("ꮌ", "Ꮌ");
   ("ꮍ", "Ꮍ"); ("ꮎ", "Ꮎ"); ("ꮏ", "Ꮏ"); ("ꮐ", "Ꮐ");
   ("ꮑ", "Ꮑ"); ("ꮒ", "Ꮒ"); ("ꮓ", "Ꮓ"); ("ꮔ", "Ꮔ");
   ("ꮕ", "Ꮕ"); ("ꮖ", "Ꮖ"); ("ꮗ", "Ꮗ"); ("ꮘ", "Ꮘ");
   ("ꮙ", "Ꮙ"); ("ꮚ", "Ꮚ"); ("ꮛ", "Ꮛ"); ("ꮜ", "Ꮜ");
   ("ꮝ", "Ꮝ"); ("ꮞ", "Ꮞ"); ("ꮟ", "Ꮟ"); ("ꮠ", "Ꮠ");
   ("ꮡ", "Ꮡ"); ("ꮢ", "Ꮢ"); ("ꮣ", "Ꮣ"); ("ꮤ", "Ꮤ");
   ("ꮥ", "Ꮥ"); ("ꮦ", "Ꮦ"); ("ꮧ", "Ꮧ"); ("ꮨ", "Ꮨ");
   ("ꮩ", "Ꮩ"); ("ꮪ", "Ꮪ"); ("ꮫ", "Ꮫ"); ("ꮬ", "Ꮬ");
   ("ꮭ", "Ꮭ"); ("ꮮ", "Ꮮ"); ("ꮯ", "Ꮯ"); ("ꮰ", "Ꮰ");
   ("ꮱ", "Ꮱ"); ("ꮲ", "Ꮲ"); ("ꮳ", "Ꮳ"); ("ꮴ", "Ꮴ");
   ("ꮵ", "Ꮵ"); ("ꮶ", "Ꮶ"); ("ꮷ", "Ꮷ"); ("ꮸ", "Ꮸ");
   ("ꮹ", "Ꮹ"); ("ꮺ", "Ꮺ"); ("ꮻ", "Ꮻ"); ("ꮼ", "Ꮼ");
   ("ꮽ", "Ꮽ"); ("ꮾ", "Ꮾ"); ("ꮿ", "Ꮿ"); ("ﬀ", "FF");
   ("ﬁ", "FI"); ("ﬂ", "FL"); ("ﬃ", "FFI"); ("ﬄ", "FFL");
   ("ﬅ", "ST"); ("ﬆ", "ST"); ("ﬓ", "ՄՆ"); ("ﬔ", "ՄԵ");
   ("ﬕ", "ՄԻ"); ("ﬖ", "ՎՆ"); ("ﬗ", "ՄԽ"); ("ａ", "Ａ");
   ("ｂ", "Ｂ"); ("ｃ", "Ｃ"); ("ｄ", "Ｄ"); ("ｅ", "Ｅ");
   ("ｆ", "Ｆ"); ("ｇ", "Ｇ"); ("ｈ", "Ｈ"); ("ｉ", "Ｉ");
   ("ｊ", "Ｊ"); ("ｋ", "Ｋ"); ("ｌ", "Ｌ"); ("ｍ", "Ｍ");
   ("ｎ", "Ｎ"); ("ｏ", "Ｏ"); ("ｐ", "Ｐ"); ("ｑ", "Ｑ");
   ("ｒ", "Ｒ"); ("ｓ", "Ｓ"); ("ｔ", "Ｔ"); ("ｕ", "Ｕ");
   ("ｖ", "Ｖ"); ("ｗ", "Ｗ"); ("ｘ", "Ｘ"); ("ｙ", "Ｙ");
   ("ｚ", "Ｚ"); ("𐐨", "𐐀"); ("𐐩", "𐐁"); ("𐐪", "𐐂");
   ("𐐫", "𐐃"); ("𐐬", "𐐄"); ("𐐭", "𐐅"); ("𐐮", "𐐆");
   ("𐐯", "𐐇"); ("𐐰", "𐐈"); ("𐐱", "𐐉"); ("𐐲", "𐐊");
   ("𐐳", "𐐋"); ("𐐴", "𐐌"); ("𐐵", "𐐍"); ("𐐶", "𐐎");
   ("𐐷", "𐐏"); ("𐐸", "𐐐"); ("𐐹", "𐐑"); ("𐐺", "𐐒");
   ("𐐻", "𐐓"); ("𐐼", "𐐔"); ("𐐽", "𐐕"); ("𐐾", "𐐖");
   ("𐐿", "𐐗"); ("𐑀", "𐐘"); ("𐑁", "𐐙"); ("𐑂", "𐐚");
   ("𐑃", "𐐛"); ("𐑄", "𐐜"); ("𐑅", "𐐝"); ("𐑆", "𐐞");
   ("𐑇", "𐐟"); ("𐑈", "𐐠"); ("𐑉", "𐐡"); ("𐑊", "𐐢");
   ("𐑋", "𐐣"); ("𐑌", "𐐤"); ("𐑍", "𐐥"); ("𐑎", "𐐦");
   ("𐑏", "𐐧"); ("𐓘", "𐒰"); ("𐓙", "𐒱"); ("𐓚", "𐒲");
   ("𐓛", "𐒳"); ("𐓜", "𐒴"); ("𐓝", "𐒵"); ("𐓞", "𐒶");
   ("𐓟", "𐒷"); ("𐓠", "𐒸"); ("𐓡", "𐒹"); ("𐓢", "𐒺");
   ("𐓣", "𐒻"); ("𐓤", "𐒼"); ("𐓥", "𐒽"); ("𐓦", "𐒾");
   ("𐓧", "𐒿"); ("𐓨", "𐓀"); ("𐓩", "𐓁"); ("𐓪", "𐓂");
   ("𐓫", "𐓃"); ("𐓬", "𐓄"); ("𐓭", "𐓅"); ("𐓮", "𐓆");
   ("𐓯", "𐓇"); ("𐓰", "𐓈"); ("𐓱", "𐓉"); ("𐓲", "𐓊");
   ("𐓳", "𐓋"); ("𐓴", "𐓌"); ("𐓵", "𐓍"); ("𐓶", "𐓎");
   ("𐓷", "𐓏"); ("𐓸", "𐓐"); ("𐓹", "𐓑"); ("𐓺", "𐓒");
   ("𐓻", "𐓓"); ("𐖗", "𐕰"); ("𐖘", "𐕱"); ("𐖙", "𐕲");
   ("𐖚", "𐕳"); ("𐖛", "𐕴"); ("𐖜", "𐕵"); ("𐖝", "𐕶");
   ("𐖞", "𐕷"); ("𐖟", "𐕸"); ("𐖠", "𐕹"); ("𐖡", "𐕺");
   ("𐖣", "𐕼"); ("𐖤", "𐕽"); ("𐖥", "𐕾"); ("𐖦", "𐕿");
   ("𐖧", "𐖀"); ("𐖨", "𐖁"); ("𐖩", "𐖂"); ("𐖪", "𐖃");
   ("𐖫", "𐖄"); ("𐖬", "𐖅"); ("𐖭", "𐖆"); ("𐖮", "𐖇");
   ("𐖯", "𐖈"); ("𐖰", "𐖉"); ("𐖱", "𐖊"); ("𐖳", "𐖌");
   ("𐖴", "𐖍"); ("𐖵", "𐖎"); ("𐖶", "𐖏"); ("𐖷", "𐖐");
   ("𐖸", "𐖑"); ("𐖹", "𐖒"); ("𐖻", "𐖔"); ("𐖼", "𐖕");
   ("𐳀", "𐲀"); ("𐳁", "𐲁"); ("𐳂", "𐲂"); ("𐳃", "𐲃");
   ("𐳄", "𐲄"); ("𐳅", "𐲅"); ("𐳆", "𐲆"); ("𐳇", "𐲇");
   ("𐳈", "𐲈"); ("𐳉", "𐲉"); ("𐳊", "𐲊"); ("𐳋", "𐲋");
   ("𐳌", "𐲌"); ("𐳍", "𐲍"); ("𐳎", "𐲎"); ("𐳏", "𐲏");
   ("𐳐", "𐲐"); ("𐳑", "𐲑"); ("𐳒", "𐲒"); ("𐳓", "𐲓");
   ("𐳔", "𐲔"); ("𐳕", "𐲕"); ("𐳖", "𐲖"); ("𐳗", "𐲗");
   ("𐳘", "𐲘"); ("𐳙", "𐲙"); ("𐳚", "𐲚"); ("𐳛", "𐲛");
   ("𐳜", "𐲜"); ("𐳝", "𐲝"); ("𐳞", "𐲞"); ("𐳟", "𐲟");
   ("𐳠", "𐲠"); ("𐳡", "𐲡"); ("𐳢", "𐲢"); ("𐳣", "𐲣");
   ("𐳤", "𐲤"); ("𐳥", "𐲥"); ("𐳦", "𐲦"); ("𐳧", "𐲧");
   ("𐳨", "𐲨"); ("𐳩", "𐲩"); ("𐳪", "𐲪"); ("𐳫", "𐲫");
   ("𐳬", "𐲬"); ("𐳭", "𐲭"); ("𐳮", "𐲮"); ("𐳯", "𐲯");
   ("𐳰", "𐲰"); ("𐳱", "𐲱"); ("𐳲", "𐲲"); ("𑣀", "𑢠");
   ("𑣁", "𑢡"); ("𑣂", "𑢢"); ("𑣃", "𑢣"); ("𑣄", "𑢤");
   ("𑣅", "𑢥"); ("𑣆", "𑢦"); ("𑣇", "𑢧"); ("𑣈", "𑢨");
   ("𑣉", "𑢩"); ("𑣊", "𑢪"); ("𑣋", "𑢫"); ("𑣌", "𑢬");
   ("𑣍", "𑢭"); ("𑣎", "𑢮"); ("𑣏", "𑢯"); ("𑣐", "𑢰");
   ("𑣑", "𑢱"); ("𑣒", "𑢲"); ("𑣓", "𑢳"); ("𑣔", "𑢴");
   ("𑣕", "𑢵"); ("𑣖", "𑢶"); ("𑣗", "𑢷"); ("𑣘", "𑢸");
   ("𑣙", "𑢹"); ("𑣚", "𑢺"); ("𑣛", "𑢻"); ("𑣜", "𑢼");
   ("𑣝", "𑢽"); ("𑣞", "𑢾"); ("𑣟", "𑢿"); ("𖹠", "𖹀");
   ("𖹡", "𖹁"); ("𖹢", "𖹂"); ("𖹣", "𖹃"); ("𖹤", "𖹄");
   ("𖹥", "𖹅"); ("𖹦", "𖹆"); ("𖹧", "𖹇"); ("𖹨", "𖹈");
   ("𖹩", "𖹉"); ("𖹪", "𖹊"); ("𖹫", "𖹋"); ("𖹬", "𖹌");
   ("𖹭", "𖹍"); ("𖹮", "𖹎"); ("𖹯", "𖹏"); ("𖹰", "𖹐");
   ("𖹱", "𖹑"); ("𖹲", "𖹒"); ("𖹳", "𖹓"); ("𖹴", "𖹔");
   ("𖹵", "𖹕"); ("𖹶", "𖹖"); ("𖹷", "𖹗"); ("𖹸", "𖹘");
   ("𖹹", "𖹙"); ("𖹺", "𖹚"); ("𖹻", "𖹛"); ("𖹼", "𖹜");
   ("𖹽", "𖹝"); ("𖹾", "𖹞"); ("𖹿", "𖹟"); ("𞤢", "𞤀");
   ("𞤣", "𞤁"); ("𞤤", "𞤂"); ("𞤥", "𞤃"); ("𞤦", "𞤄");
   ("𞤧", "𞤅"); ("𞤨", "𞤆"); ("𞤩", "𞤇"); ("𞤪", "𞤈");
   ("𞤫", "𞤉"); ("𞤬", "𞤊"); ("𞤭", "𞤋"); ("𞤮", "𞤌");
   ("𞤯", "𞤍"); ("𞤰", "𞤎"); ("𞤱", "𞤏"); ("𞤲", "𞤐");
   ("𞤳", "𞤑"); ("𞤴", "𞤒"); ("𞤵", "𞤓"); ("𞤶", "𞤔");
   ("𞤷", "𞤕"); ("𞤸", "𞤖"); ("𞤹", "𞤗"); ("𞤺", "𞤘");
   ("𞤻", "𞤙"); ("𞤼", "𞤚"); ("𞤽", "𞤛"); ("𞤾", "𞤜");
   ("𞤿", "𞤝"); ("𞥀", "𞤞"); ("𞥁", "𞤟"); ("𞥂", "𞤠");
   ("𞥃", "𞤡")
  ].

Fixpoint assoc (key : string) (table : list (string * string)) : option string :=
  match table with
  | [] => None
  | (k, v) :: rest => if String.eqb key k then Some v else assoc key rest
  end.

(** One character, as its UTF-8 bytes. *)
Definition upper_char (char : string) : string :=
  default char (assoc char upper_table).

(** UTF-8: a byte from 192 starts a character of several bytes, the bytes
    128 to 191 continue it. *)
Definition is_lead (c : ascii) : bool := (192 <=? nat_of_ascii c)%nat.

Definition is_continuation (c : ascii) : bool :=
  (128 <=? nat_of_ascii c)%nat && (nat_of_ascii c <? 192)%nat.

Definition continues (pending : string) (c : ascii) : bool :=
  match pending with
  | EmptyString => false
  | String lead _ => is_lead lead && is_continuation c
  end.

(** [pending] holds the bytes of the character being read. *)
Fixpoint upper_go (pending s : string) : string :=
  match s with
  | EmptyString => upper_char pending
  | String c rest =>
      if continues pending c
      then upper_go (pending ++ String c EmptyString) rest
      else upper_char pending ++ upper_go (String c EmptyString) rest
  end.

(** [s.upper()] on the UTF-8 bytes of [s]. *)
Definition upper (s : string) : string := upper_go EmptyString s.

Global Arguments upper_char : simpl never.

Definition is_lower (c : ascii) : bool :=
  let n := nat_of_ascii c in (97 <=? n)%nat && (n <=? 122)%nat.

Definition no_lower (s : string) : bool :=
  forallb (λ c, negb (is_lower c)) (list_ascii_of_string s).

(** Strings of ASCII characters only. *)
Definition ascii_only (s : string) : bool :=
  forallb (λ c, (nat_of_ascii c <? 128)%nat) (list_ascii_of_string s).

(** The pending bytes [upper_go] can hold: none, one byte, or a lead byte
    followed by bytes from 128. *)
Definition pending_ok (pending : string) : bool :=
  match pending with
  | EmptyString => true
  | String lead rest =>
      String.eqb rest "" ||
      is_lead lead &&
      forallb (λ c, (128 <=? nat_of_ascii c)%nat) (list_ascii_of_string rest)
  end.

(** [v.upper()]: only a string has [upper]. *)
Definition py_upper (v : value) : exn + string :=
  match v with
  | VStr s => inr (upper s)
  | _ => inl AttributeError
  end.

(** Python's [==] on the values the rows carry: numbers by magnitude. *)
Definition py_eq (a b : value) : Prop :=
  match a, b with
  | VNum p, VNum q => Qeq p q
  | _, _ => a = b
  end.

(** ** The clock and [strftime] *)

(** An aware datetime in UTC, as [datetime.now(timezone.utc)] returns. *)
Record datetime : Type := Datetime {
  year : nat; month : nat; day : nat;
  hour : nat; minute : nat; second : nat
}.

Definition digits (n : nat) : string := NilZero.string_of_uint (Nat.to_uint n).

Fixpoint zeros (k : nat) : string :=
  match k with
  | O => ""
  | S k' => String "0" (zeros k')
  end.

(** Decimal rendering, left-padded with zeros to [width]. *)
Definition pad (width n : nat) : string :=
  let d := digits n in zeros (width - String.length d) ++ d.

(** [dt.strftime("%Y-%m-%d %H:%M:%S%z")] for a UTC datetime with a year of
    four digits: the offset [%z] of [timezone.utc] is [+0000]. *)
Definition strftime (dt : datetime) : string :=
  (pad 4 (year dt) ++ "-" ++ pad 2 (month dt) ++ "-" ++ pad 2 (day dt) ++ " " ++
   pad 2 (hour dt) ++ ":" ++ pad 2 (minute dt) ++ ":" ++ pad 2 (second dt))
  ++ "+0000".

(** ** Rows *)

(** A row of the frame [normalize_rows] builds: the cells that come from the
    payload are whatever the payload holds. *)
Module Frame.
Record row : Type := Row {
  ts_utc : string;
  coin_id : value;
  symbol : string;
  price_usd : value;
  market_cap_usd : value;
  volume_24h_usd : value;
  change_24h_pct : value;
  source : string
}.
End Frame.

(** A row of the table [prices] ([CREATE_SQL]), and of a frame whose cells
    have the declared column types: [TEXT] is a string, [REAL] a number,
    NULL is [None].  [coin_id] is nullable in a frame ([item.get("id")] may be
    [None]); the table's [NOT NULL] rejects it on insertion. *)
Module Prices.
Record row : Type := Row {
  ts_utc : string;
  coin_id : option string;
  symbol : string;
  price_usd : option Q;
  market_cap_usd : option Q;
  volume_24h_usd : option Q;
  change_24h_pct : option Q;
  source : string
}.

(** The primary key [(ts_utc, coin_id)]. *)
Definition key (r : row) : string * option string := (ts_utc r, coin_id r).

(** Column order of [CREATE_SQL]. *)
Definition columns : list string :=
  ["ts_utc"; "coin_id"; "symbol"; "price_usd"; "market_cap_usd";
   "volume_24h_usd"; "change_24h_pct"; "source"].
End Prices.

(** A row of the frames [export_snapshots] reads and writes: the seven
    columns of its [SELECT] list, in that order. *)
Module Snap.
Record row : Type := Row {
  coin_id : option string;
  symbol : string;
  ts_utc : string;
  price_usd : option Q;
  market_cap_usd : option Q;
  volume_24h_usd : option Q;
  change_24h_pct : option Q
}.

Definition columns : list string :=
  ["coin_id"; "symbol"; "ts_utc"; "price_usd"; "market_cap_usd";
   "volume_24h_usd"; "change_24h_pct"].
End Snap.

(** ** CSV files *)

Inductive cell : Type :=
| CNull
| CText (s : string)
| CReal (q : Q).

(** A written file: the header line and one line of cells per frame row. *)
Record csv : Type := Csv { header : list string; body : list (list cell) }.

Definition text_cell (o : option string) : cell :=
  match o with Some s => CText s | None => CNull end.

Definition real_cell (o : option Q) : cell :=
  match o with Some q => CReal q | None => CNull end.

Definition csv_line (r : Snap.row) : list cell :=
  [text_cell (Snap.coin_id r); CText (Snap.symbol r); CText (Snap.ts_utc r);
   real_cell (Snap.price_usd r); real_cell (Snap.market_cap_usd r);
   real_cell (Snap.volume_24h_usd r); real_cell (Snap.change_24h_pct r)].

(** [frame.to_csv(path, index=False)]: the frame's columns, then its rows. *)
Definition to_csv (frame : list Snap.row) : csv :=
  {| header := Snap.columns; body := csv_line <$> frame |}.

(** ** The world and its computations *)

Inductive level : Type := INFO | WARNING.

Record world : Type := World {
  clock : nat → datetime;          (* what the n-th reading of the clock gives *)
  ticks : nat;                     (* readings taken so far *)
  prices : list Prices.row;        (* the table, in insertion order *)
  files : gmap string csv;         (* files of the warehouse directory *)
  log : list (level * string)      (* records emitted, oldest first *)
}.

Definition M (A : Type) : Type := world → (exn + A) * world.

Definition ret {A} (a : A) : M A := λ w, (inr a, w).

Definition raise {A} (e : exn) : M A := λ w, (inl e, w).

Definition bind {A B} (m : M A) (k : A → M B) : M B :=
  λ w, match m w with
       | (inl e, w') => (inl e, w')
       | (inr a, w') => k a w'
       end.

Definition lift {A} (r : exn + A) : M A := λ w, (r, w).

Declare Scope py_scope.
Delimit Scope py_scope with py.
Notation "x <- m ;; k" := (bind m (λ x, k))
  (at level 100, m at next level, right associativity) : py_scope.
Notation "m ;; k" := (bind m (λ _, k))
  (at level 100, right associativity) : py_scope.
Open Scope py_scope.

(** The same sequencing for code that cannot touch the world. *)
Definition and_then {A B} (r : exn + A) (k : A → exn + B) : exn + B :=
  match r with
  | inl e => inl e
  | inr a => k a
  end.

(** [datetime.now(timezone.utc)]: one reading of the clock. *)
Definition utcnow : M datetime :=
  λ w, (inr (clock w (ticks w)),
        {| clock := clock w; ticks := S (ticks w); prices := prices w;
           files := files w; log := log w |}).

Definition emit (lvl : level) (msg : string) : M unit :=
  λ w, (inr tt,
        {| clock := clock w; ticks := ticks w; prices := prices w;
           files := files w; log := log w ++ [(lvl, msg)] |}).

Definition write_file (path : string) (content : csv) : M unit :=
  λ w, (inr tt,
        {| clock := clock w; ticks := ticks w; prices := prices w;
           files := <[path := content]> (files w); log := log w |}).

Definition set_prices (rows : list Prices.row) (w : world) : world :=
  {| clock := clock w; ticks := ticks w; prices := rows;
     files := files w; log := log w |}.

(** ** Paths and configuration *)

(** Paths are relative to [BASE_DIR], the directory of the script. *)
Definition WAREHOUSE : string := "data/warehouse".
Definition DB_PATH : string := WAREHOUSE ++ "/crypto_prices.db".
Definition SOURCE : string := "coingecko".

(** ** normalize_rows *)

(** The dictionary one iteration of the loop appends.  The entries are
    evaluated in order; the first failing one raises. *)
Definition normalize_item (now : string) (item : value) : exn + Frame.row :=
  and_then (py_get item "id") (λ id,
  and_then (py_get item "symbol") (λ sym,
  and_then (py_upper (py_or sym (VStr ""))) (λ symbol,
  and_then (py_get item "current_price") (λ price,
  and_then (py_get item "market_cap") (λ cap,
  and_then (py_get item "total_volume") (λ volume,
  and_then (py_get item "price_change_percentage_24h") (λ change,
  inr {| Frame.ts_utc := now;
         Frame.coin_id := id;
         Frame.symbol := symbol;
         Frame.price_usd := price;
         Frame.market_cap_usd := cap;
         Frame.volume_24h_usd := volume;
         Frame.change_24h_pct := py_or change (VNum 0);
         Frame.source := SOURCE |}))))))).

(** [for item in payload: rows.append({...})] *)
Fixpoint normalize_loop (now : string) (payload : list value)
    (rows : list Frame.row) : exn + list Frame.row :=
  match payload with
  | [] => inr rows
  | item :: rest =>
      and_then (normalize_item now item) (λ row,
      normalize_loop now rest (rows ++ [row]))
  end.

Definition normalize_rows (payload : list value) : M (list Frame.row) :=
  dt <- utcnow ;;
  let now := strftime dt in
  lift (normalize_loop now payload []).

(** ** From the normalized frame to the table's types *)

(** The numbers a [REAL] column keeps as they are whether they came as an
    [int] or as a [float]: the whole numbers up to 2^53 in magnitude and the
    numbers that are not whole (which can only be floats). *)
Definition exact_real (q : Q) : bool :=
  negb (Qnum q mod Zpos (Qden q) =? 0)%Z ||
  (Z.abs (Qnum q) <=? 2 ^ 53 * Zpos (Qden q))%Z.

(** The value SQLite stores for a cell of a [REAL] column.  Only null and
    the numbers of [exact_real] are covered.  A larger whole number is
    outside this model: as an [int] it is rounded by the column or, from
    2^63, makes the insertion raise [OverflowError]; as a [float] it is
    stored as it is; and [VNum] does not record which of the two it was.
    Cells of another type are outside this model too. *)
Definition real_column (v : value) : option (option Q) :=
  match v with
  | VNone => Some None
  | VNum q => if exact_real q then Some (Some q) else None
  | _ => None
  end.

(** Likewise for the [TEXT] column [coin_id]. *)
Definition text_column (v : value) : option (option string) :=
  match v with
  | VNone => Some None
  | VStr s => Some (Some s)
  | _ => None
  end.

Definition bind_row (r : Frame.row) : option Prices.row :=
  id ← text_column (Frame.coin_id r);
  price ← real_column (Frame.price_usd r);
  cap ← real_column (Frame.market_cap_usd r);
  volume ← real_column (Frame.volume_24h_usd r);
  change ← real_column (Frame.change_24h_pct r);
  Some {| Prices.ts_utc := Frame.ts_utc r;
          Prices.coin_id := id;
          Prices.symbol := Frame.symbol r;
          Prices.price_usd := price;
          Prices.market_cap_usd := cap;
          Prices.volume_24h_usd := volume;
          Prices.change_24h_pct := change;
          Prices.source := Frame.source r |}.

(** ** load_into_sqlite *)

(** [with sqlite3.connect(DB_PATH) as conn: body]: the connection commits when
    the body returns and rolls the table back when it raises; the exception
    propagates. *)
Definition with_connection {A} (body : M A) : M A :=
  λ w, match body w with
       | (inl e, w') => (inl e, set_prices (prices w) w')
       | (inr a, w') => (inr a, w')
       end.

Definition NOT_NULL_coin_id : string :=
  "NOT NULL constraint failed: prices.coin_id".
Definition UNIQUE_ts_utc_coin_id : string :=
  "UNIQUE constraint failed: prices.ts_utc, prices.coin_id".

(** One [INSERT INTO prices]: the constraints of [CREATE_SQL] are checked
    against the table as it is now, earlier rows of the batch included. *)
Definition insert_row (r : Prices.row) : M unit :=
  λ w, match Prices.coin_id r with
       | None => raise (IntegrityError NOT_NULL_coin_id) w
       | Some _ =>
           if bool_decide (Prices.key r ∈ (Prices.key <$> prices w))
           then raise (IntegrityError UNIQUE_ts_utc_coin_id) w
           else (inr tt, set_prices (prices w ++ [r]) w)
       end.

(** [df.to_sql("prices", conn, if_exists="append", index=False)] on the
    existing table: the rows are inserted one after the other. *)
Fixpoint to_sql (df : list Prices.row) : M unit :=
  match df with
  | [] => ret tt
  | r :: rest => insert_row r ;; to_sql rest
  end.

Definition load_into_sqlite (df : list Prices.row) : M unit :=
  match df with
  | [] => emit WARNING "No rows to load."
  | _ :: _ =>
      with_connection (to_sql df) ;;
      emit INFO ("Loaded " ++ digits (length df) ++ " rows into " ++ DB_PATH ++ " (prices).")
  end.

(** [init_db]: both statements are [IF NOT EXISTS] and the table exists. *)
Definition init_db : M unit :=
  with_connection (ret tt) ;;
  emit INFO ("DB ready: " ++ DB_PATH).

(** ** export_snapshots *)

(** SQL equality: NULL on either side gives NULL. *)
Definition sql_eq (a b : option string) : option bool :=
  match a, b with
  | Some x, Some y => Some (String.eqb x y)
  | _, _ => None
  end.

(** [MAX] over a [TEXT] column: byte-wise comparison, NULL over no rows. *)
Definition sql_max (ts : list string) : option string :=
  foldl (λ acc t, match acc with
                  | None => Some t
                  | Some m => Some (if String.leb t m then m else t)
                  end) None ts.

(** Descending order with NULL last: [a] may stand before [b]. *)
Definition desc_leb (a b : option Q) : bool :=
  match a, b with
  | _, None => true
  | None, Some _ => false
  | Some x, Some y => Qle_bool y x
  end.

Definition desc_by (col : Snap.row → option Q) : relation Snap.row :=
  λ r1 r2, Is_true (desc_leb (col r1) (col r2)).

Global Instance desc_by_dec col : RelDecision (desc_by col).
Proof. intros r1 r2. unfold desc_by. apply _. Defined.

Definition select_columns (r : Prices.row) : Snap.row :=
  {| Snap.coin_id := Prices.coin_id r;
     Snap.symbol := Prices.symbol r;
     Snap.ts_utc := Prices.ts_utc r;
     Snap.price_usd := Prices.price_usd r;
     Snap.market_cap_usd := Prices.market_cap_usd r;
     Snap.volume_24h_usd := Prices.volume_24h_usd r;
     Snap.change_24h_pct := Prices.change_24h_pct r |}.

(** [SELECT MAX(ts_utc) as ts FROM prices], then [["ts"].iloc[0]]. *)
Definition select_max_ts : M (option string) :=
  λ w, (inr (sql_max (Prices.ts_utc <$> prices w)), w).

(** [SELECT coin_id, ... FROM prices WHERE ts_utc = ? ORDER BY market_cap_usd DESC]:
    a row is kept when the condition is true (not false, not NULL). *)
Definition select_snapshot (param : option string) : M (list Snap.row) :=
  λ w, (inr (merge_sort (desc_by Snap.market_cap_usd)
               (select_columns <$>
                  filter (λ r, sql_eq (Some (Prices.ts_utc r)) param = Some true)
                         (prices w))), w).

(** [frame.sort_values(col, ascending=False)]: NaN (NULL) goes last.  As for
    [ORDER BY], the order among rows with equal keys is the sorting
    algorithm's own; no property below depends on it. *)
Definition sort_values (col : Snap.row → option Q) (frame : list Snap.row)
    : list Snap.row :=
  merge_sort (desc_by col) frame.

Definition snap_path : string := WAREHOUSE ++ "/latest_snapshot.csv".
Definition movers_path : string := WAREHOUSE ++ "/top_movers_24h.csv".

(** [export_snapshots] on a database in which the table exists; for the
    database without it see [Db.export_snapshots]. *)
Definition export_snapshots : M unit :=
  snap <- with_connection (
            latest_ts <- select_max_ts ;;
            select_snapshot latest_ts) ;;
  write_file snap_path (to_csv snap) ;;
  emit INFO ("Wrote " ++ snap_path) ;;
  let movers := sort_values Snap.change_24h_pct snap in
  write_file movers_path (to_csv movers) ;;
  emit INFO ("Wrote " ++ movers_path).

(** The two frames [export_snapshots] writes, as functions of the table. *)
Definition snapshot_report (table : list Prices.row) : list Snap.row :=
  merge_sort (desc_by Snap.market_cap_usd)
    (select_columns <$>
       filter (λ r, sql_eq (Some (Prices.ts_utc r))
                      (sql_max (Prices.ts_utc <$> table)) = Some true) table).

Definition movers_report (table : list Prices.row) : list Snap.row :=
  sort_values Snap.change_24h_pct (snapshot_report table).

(** ** Shapes of payload records *)

Definition mapping_shaped (item : value) : Prop :=
  match item with VDict _ => True | _ => False end.

(** A field that is absent, null or a string. *)
Definition text_or_null (field : option value) : Prop :=
  match field with
  | None | Some VNone | Some (VStr _) => True
  | _ => False
  end.

(** A field that is absent, null or a number. *)
Definition number_or_null (field : option value) : Prop :=
  match field with
  | None | Some VNone | Some (VNum _) => True
  | _ => False
  end.

(** A record of the shape the API documents for the two fields
    [normalize_rows] inspects. *)
Definition well_formed (item : value) : Prop :=
  match item with
  | VDict d =>
      text_or_null (d !! "symbol") ∧
      number_or_null (d !! "price_change_percentage_24h")
  | _ => False
  end.

(** What the specification says the observation of a record is. *)
Definition observation_of (item : value) (r : Frame.row) : Prop :=
  match item with
  | VDict d =>
      Frame.coin_id r = default VNone (d !! "id") ∧
      Frame.symbol r =
        match d !! "symbol" with Some (VStr s) => upper s | _ => "" end ∧
      (∀ s, d !! "symbol" = Some (VStr s) → ascii_only s = true →
            list_ascii_of_string (Frame.symbol r) =
              (λ c, if is_lower c then ascii_of_nat (nat_of_ascii c - 32) else c)
                <$> list_ascii_of_string s) ∧
      Frame.price_usd r = default VNone (d !! "current_price") ∧
      Frame.market_cap_usd r = default VNone (d !! "market_cap") ∧
      Frame.volume_24h_usd r = default VNone (d !! "total_volume") ∧
      match d !! "price_change_percentage_24h" with
      | Some (VNum q) => py_eq (Frame.change_24h_pct r) (VNum q)
      | _ => Frame.change_24h_pct r = VNum 0
      end
  | _ => False
  end.

(** ** Concrete worlds and rows used in examples *)

Definition fresh_world : world :=
  {| clock := λ n, Datetime 2024 1 1 0 0 n; ticks := 0; prices := [];
     files := ∅; log := [] |}.

Definition btc : Prices.row :=
  Prices.Row "2024-01-01 00:00:00+0000" (Some "bitcoin") "BTC"
    (Some 40000%Q) (Some 800000000000%Q) (Some 20000000000%Q) (Some (5#2)%Q)
    SOURCE.

Definition eth : Prices.row :=
  Prices.Row "2024-01-01 00:00:00+0000" (Some "ethereum") "ETH"
    (Some 2000%Q) (Some 240000000000%Q) (Some 10000000000%Q) (Some 5%Q)
    SOURCE.

Definition eth_before : Prices.row :=
  Prices.Row "2023-12-31 00:00:00+0000" (Some "ethereum") "ETH"
    (Some 1900%Q) (Some 230000000000%Q) (Some 9000000000%Q) (Some (-1)%Q)
    SOURCE.

(** One record, a mapping whose [symbol] is a number. *)
Definition numeric_symbol_payload : list value :=
  [VDict {[ "id" := VStr "bitcoin"; "symbol" := VNum 5 ]}].

(** One record, a mapping whose 24h change is present and is the empty
    string. *)
Definition empty_change_payload : list value :=
  [VDict {[ "id" := VStr "bitcoin"; "symbol" := VStr "btc";
            "price_change_percentage_24h" := VStr "" ]}].

(** Two records of the documented shape. *)
Definition sample_payload : list value :=
  [VDict {[ "id" := VStr "bitcoin"; "symbol" := VStr "btc";
            "current_price" := VNum 40000;
            "market_cap" := VNum 800000000000;
            "price_change_percentage_24h" := VNum (5#2) ]};
   VDict {[ "id" := VStr "ethereum"; "market_cap" := VNone ]}].

(** One record whose [symbol] and 24h change are present and null. *)
Definition null_fields_payload : list value :=
  [VDict {[ "id" := VStr "cardano"; "symbol" := VNone;
            "price_change_percentage_24h" := VNone ]}].

Definition seeded_world : world := set_prices [eth_before; btc; eth] fresh_world.

(** "Non-increasing, nulls last" for two consecutive keys of a report. *)
Definition non_increasing (a b : option Q) : Prop :=
  match a, b with
  | _, None => True
  | None, Some _ => False
  | Some x, Some y => (y <= x)%Q
  end.

(** ** Operations on the store *)

(** The operations the program performs, each run against the world the
    previous one left (a raised exception ends the run, not the store). *)
Inductive op : Type :=
| OpInit
| OpNormalize (payload : list value)
| OpLoad (df : list Prices.row)
| OpExport.

Definition run_op (o : op) : M unit :=
  match o with
  | OpInit => init_db
  | OpNormalize payload => normalize_rows payload ;; ret tt
  | OpLoad df => load_into_sqlite df
  | OpExport => export_snapshots
  end.

Definition run_ops (ops : list op) (w : world) : world :=
  foldl (λ w o, snd (run_op o w)) w ops.

(** ** Further predicates on records and tables *)

(** The records [normalize_rows] does not raise on: a mapping whose [symbol],
    when truthy, is a string. *)
Definition accepts (item : value) : bool :=
  match item with
  | VDict d =>
      match default VNone (d !! "symbol") with
      | VStr _ => true
      | sym => negb (truthy sym)
      end
  | _ => false
  end.

(** The two constraints of [CREATE_SQL] that [insert_row] checks. *)
Definition table_ok (rows : list Prices.row) : Prop :=
  NoDup (Prices.key <$> rows) ∧ Forall (λ r, Prices.coin_id r ≠ None) rows.

(** A batch the table takes: no null [coin_id], no key twice in the batch,
    no key already in the table. *)
Definition insertable (table df : list Prices.row) : Prop :=
  Forall (λ r, Prices.coin_id r ≠ None) df ∧
  NoDup (Prices.key <$> df) ∧
  ∀ r, r ∈ df → Prices.key r ∉ (Prices.key <$> table).

(** A record that is a mapping but has a list where the symbol should be,
    and one that is not a mapping. *)
Definition list_symbol_payload : list value :=
  [VDict {[ "id" := VStr "bitcoin"; "symbol" := VStr "btc" ]};
   VDict {[ "id" := VStr "solana"; "symbol" := VList [VStr "sol"] ]}].

(** Falsy fields that are not null. *)
Definition falsy_fields_payload : list value :=
  [VDict {[ "id" := VStr "solana"; "symbol" := VNum 0;
            "current_price" := VNum 0;
            "price_change_percentage_24h" := VStr "" ]}].

(** ** Instants *)

(** The datetimes a running clock returns: fields in their calendar ranges,
    the year with four digits. *)
Definition in_range (dt : datetime) : Prop :=
  (1000 ≤ year dt < 100 * 100 ∧ 1 ≤ month dt ≤ 12 ∧ 1 ≤ day dt ≤ 31 ∧
   hour dt ≤ 23 ∧ minute dt ≤ 59 ∧ second dt ≤ 59)%nat.

Definition fields (dt : datetime) : list nat :=
  [year dt; month dt; day dt; hour dt; minute dt; second dt].

(** Chronological comparison: the fields from the year down. *)
Fixpoint lex_compare (l1 l2 : list nat) : comparison :=
  match l1, l2 with
  | [], [] => Eq
  | [], _ :: _ => Lt
  | _ :: _, [] => Gt
  | a :: l1', b :: l2' =>
      match Nat.compare a b with
      | Eq => lex_compare l1' l2'
      | c => c
      end
  end.

Definition new_year_eve : datetime := Datetime 2023 12 31 23 59 59.
Definition new_year : datetime := Datetime 2024 1 1 0 0 0.

(** ** Runs *)

(** How a run of the program ends. *)
Inductive ending : Type :=
| Completed
| Uncaught (e : exn)     (* an exception of the pipeline's code left [main] *)
| RequestFailed.         (* [fetch_current_prices] raised *)

Definition ending_of (r : (exn + unit) * world) : ending * world :=
  match r with
  | (inl e, w) => (Uncaught e, w)
  | (inr _, w) => (Completed, w)
  end.

(** [run_fetch].  The answer of [fetch_current_prices] is an input: the
    decoded body, or [None] when the request raised (no answer within the
    timeout, an error status in [raise_for_status], a body that is not JSON).
    The result is [None] when the frame has a cell that [bind_row] does not
    cover. *)
Definition run_fetch (response : option (list value)) (w : world)
    : option (ending * world) :=
  match init_db w with
  | (inl e, w1) => Some (Uncaught e, w1)
  | (inr _, w1) =>
      match response with
      | None => Some (RequestFailed, w1)
      | Some payload =>
          match normalize_rows payload w1 with
          | (inl e, w2) => Some (Uncaught e, w2)
          | (inr frame, w2) =>
              df ← mapM bind_row frame;
              Some (ending_of ((load_into_sqlite df ;;
                                emit INFO "Fetch step complete ✅") w2))
          end
      end
  end.

Definition run_analyze (w : world) : ending * world :=
  ending_of ((export_snapshots ;; emit INFO "Analyze step complete ✅") w).

(** The choices of the [command] argument. *)
Inductive command : Type := Fetch | Analyze | All.

(** [main], after the arguments are parsed. *)
Definition main (cmd : command) (response : option (list value)) (w : world)
    : option (ending * world) :=
  step1 ← match cmd with
          | Fetch | All => run_fetch response w
          | Analyze => Some (Completed, w)
          end;
  match step1 with
  | (Completed, w1) =>
      match cmd with
      | Analyze | All => Some (run_analyze w1)
      | Fetch => Some (Completed, w1)
      end
  | _ => Some step1
  end.

(** A field that is absent, null or a number the [REAL] column keeps as
    it is. *)
Definition real_or_null (field : option value) : Prop :=
  match field with
  | None | Some VNone => True
  | Some (VNum q) => exact_real q = true
  | _ => False
  end.

(** A record with the field types the API documents: [id] a string, the
    symbol a string or null, the four numbers null or numbers the table
    keeps as they are. *)
Definition typed_record (item : value) : Prop :=
  match item with
  | VDict d =>
      (∃ s, d !! "id" = Some (VStr s)) ∧
      text_or_null (d !! "symbol") ∧
      real_or_null (d !! "current_price") ∧
      real_or_null (d !! "market_cap") ∧
      real_or_null (d !! "total_volume") ∧
      real_or_null (d !! "price_change_percentage_24h")
  | _ => False
  end.

Definition record_id (item : value) : option string :=
  match item with
  | VDict d => match d !! "id" with Some (VStr s) => Some s | _ => None end
  | _ => None
  end.

(** ** The database file *)

(** Everything above runs against a database in which the table [prices]
    exists.  A database file that no run has initialised has no such table:
    [init_db] creates it, [export_snapshots] needs it. *)
Inductive database : Type :=
| NoTable (w : world)    (* no table [prices]; [prices w] is not read *)
| Table (w : world).     (* the table exists and holds [prices w] *)

Definition rows (d : database) : list Prices.row :=
  match d with
  | NoTable _ => []
  | Table w => prices w
  end.

Definition world_of (d : database) : world :=
  match d with
  | NoTable w | Table w => w
  end.

Definition NO_SUCH_TABLE : string :=
  "Execution failed on sql 'SELECT MAX(ts_utc) as ts FROM prices;': no such table: prices".

(** [CREATE TABLE IF NOT EXISTS prices]: an absent table is created empty. *)
Definition create_if_not_exists (d : database) : world :=
  match d with
  | NoTable w => set_prices [] w
  | Table w => w
  end.

(** A computation that does not use the table. *)
Definition on_world {A} (m : M A) (d : database) : (exn + A) * database :=
  match d with
  | NoTable w => let '(r, w') := m w in (r, NoTable w')
  | Table w => let '(r, w') := m w in (r, Table w')
  end.

(** The entry points on a database file. *)
Module Db.

Definition init_db (d : database) : (exn + unit) * database :=
  let '(r, w') := init_db (create_if_not_exists d) in (r, Table w').

(** The first statement of [export_snapshots] is the query: without the
    table it raises before anything is written or logged. *)
Definition export_snapshots (d : database) : (exn + unit) * database :=
  match d with
  | NoTable w => (inl (DatabaseError NO_SUCH_TABLE), NoTable w)
  | Table w => let '(r, w') := export_snapshots w in (r, Table w')
  end.

(** [run_fetch] starts with [init_db], so the rest runs on the table. *)
Definition run_fetch (response : option (list value)) (d : database)
    : option (ending * database) :=
  '(e, w') ← run_fetch response (create_if_not_exists d);
  Some (e, Table w').

Definition run_analyze (d : database) : ending * database :=
  match export_snapshots d with
  | (inl e, d1) => (Uncaught e, d1)
  | (inr _, d1) =>
      match on_world (emit INFO "Analyze step complete ✅") d1 with
      | (inl e, d2) => (Uncaught e, d2)
      | (inr _, d2) => (Completed, d2)
      end
  end.

Definition main (cmd : command) (response : option (list value)) (d : database)
    : option (ending * database) :=
  step1 ← match cmd with
          | Fetch | All => run_fetch response d
          | Analyze => Some (Completed, d)
          end;
  match step1 with
  | (Completed, d1) =>
      match cmd with
      | Analyze | All => Some (run_analyze d1)
      | Fetch => Some (Completed, d1)
      end
  | _ => Some step1
  end.

End Db.

(** A record whose cells the table model covers: [id] and [symbol] a string
    or null, the four numbers null or numbers the table keeps as they are. *)
Definition storable_record (item : value) : Prop :=
  match item with
  | VDict d =>
      text_or_null (d !! "id") ∧
      text_or_null (d !! "symbol") ∧
      real_or_null (d !! "current_price") ∧
      real_or_null (d !! "market_cap") ∧
      real_or_null (d !! "total_volume") ∧
      real_or_null (d !! "price_change_percentage_24h")
  | _ => False
  end.

(** The answers of the request on which a run is modelled to its end: the
    request raised, or [normalize_rows] raises, or every record is
    [storable_record]. *)
Definition covered (response : option (list value)) : Prop :=
  match response with
  | None => True
  | Some payload =>
      forallb accepts payload = false ∨ Forall storable_record payload
  end.

(** A record without an [id]: the loader's batch then has a null [coin_id]. *)
Definition missing_id_payload : list value :=
  [VDict {[ "symbol" := VStr "btc"; "current_price" := VNum 40000 ]}].

(** ** Properties of normalize_rows *)

Lemma normalize_loop_spec now payload acc :
  ∀ rows, normalize_loop now payload acc = inr rows ↔
    ∃ new, Forall2 (λ item r, normalize_item now item = inr r) payload new ∧
           rows = acc ++ new.
Proof.
  revert acc. induction payload as [|item rest IH]; intros acc rows; simpl.
  - split.
    + intros [= <-]. exists []. by rewrite app_nil_r.
    + intros (new & Hall & ->). inversion Hall. by rewrite app_nil_r.
  - destruct (normalize_item now item) as [e|r] eqn:Hitem; simpl.
    + split; [done|]. intros (new & Hall & _). inversion Hall; congruence.
    + rewrite IH. split.
      * intros (new & Hall & ->). exists (r :: new).
        split; [by constructor|]. by rewrite <- app_assoc.
      * intros (new & Hall & ->). inversion Hall as [|? r' ? new' Hr Hrest]; subst.
        assert (r' = r) as -> by congruence.
        exists new'. split; [done|]. by rewrite <- app_assoc.
Qed.

Lemma normalize_rows_unfold payload w :
  normalize_rows payload w =
    (normalize_loop (strftime (clock w (ticks w))) payload [],
     {| clock := clock w; ticks := S (ticks w); prices := prices w;
        files := files w; log := log w |}).
Proof. reflexivity. Qed.

Lemma py_or_zero_eq q : py_eq (py_or (VNum q) (VNum 0)) (VNum q).
Proof.
  unfold py_or; simpl. destruct (Qeq_bool q 0) eqn:Hq; simpl; [|reflexivity].
  symmetry. by apply Qeq_bool_iff.
Qed.

Lemma symbol_text_or_null (field : option value) :
  text_or_null field →
  py_upper (py_or (default VNone field) (VStr "")) =
    inr (match field with Some (VStr s) => upper s | _ => "" end).
Proof.
  destruct field as [[| | |s| |]|]; try done; intros _; simpl.
  by destruct s.
Qed.

Lemma change_number_or_null (field : option value) :
  number_or_null field →
  match field with
  | Some (VNum q) => py_eq (py_or (default VNone field) (VNum 0)) (VNum q)
  | _ => py_or (default VNone field) (VNum 0) = VNum 0
  end.
Proof.
  destruct field as [[| |q| | |]|]; try done; intros _; simpl.
  apply py_or_zero_eq.
Qed.

Lemma normalize_item_mapping now d :
  normalize_item now (VDict d) =
    and_then (py_upper (py_or (default VNone (d !! "symbol")) (VStr ""))) (λ symbol,
    inr {| Frame.ts_utc := now;
           Frame.coin_id := default VNone (d !! "id");
           Frame.symbol := symbol;
           Frame.price_usd := default VNone (d !! "current_price");
           Frame.market_cap_usd := default VNone (d !! "market_cap");
           Frame.volume_24h_usd := default VNone (d !! "total_volume");
           Frame.change_24h_pct :=
             py_or (default VNone (d !! "price_change_percentage_24h")) (VNum 0);
           Frame.source := SOURCE |}).
Proof. reflexivity. Qed.

Lemma normalize_item_ts now item r :
  normalize_item now item = inr r → Frame.ts_utc r = now.
Proof.
  destruct item as [| | | | |d]; try done.
  rewrite normalize_item_mapping.
  destruct (py_upper _); simpl; [done|]. by intros [= <-].
Qed.

Lemma bytes_app (a b : string) :
  list_ascii_of_string (a ++ b) = list_ascii_of_string a ++ list_ascii_of_string b.
Proof.
  induction a as [|c a IH]; [done|].
  change (String c a ++ b)%string with (String c (a ++ b)%string).
  simpl. by rewrite IH.
Qed.

Lemma assoc_In key table v : assoc key table = Some v → In (key, v) table.
Proof.
  induction table as [|[k v'] rest IH]; simpl; [done|].
  destruct (String.eqb key k) eqn:Hk; [|by right; apply IH].
  apply String.eqb_eq in Hk as ->. intros [= ->]. by left.
Qed.

Lemma upper_table_no_lower key v : assoc key upper_table = Some v → no_lower v = true.
Proof.
  assert (forallb (λ kv, no_lower (snd kv)) upper_table = true) as Hall
    by (vm_compute; reflexivity).
  intros Hin%assoc_In. exact (proj1 (forallb_forall _ _) Hall (key, v) Hin).
Qed.

Lemma lower_in_upper_table c :
  is_lower c = true → assoc (String c "") upper_table ≠ None.
Proof.
  destruct c as [[] [] [] [] [] [] [] []]; intros H; vm_compute in H;
    try discriminate H; vm_compute; intros ?; discriminate.
Qed.

Lemma upper_char_ascii c :
  (nat_of_ascii c <? 128)%nat = true →
  upper_char (String c "") = String (upper_ascii c) "".
Proof.
  destruct c as [[] [] [] [] [] [] [] []]; intros H; vm_compute in H;
    try discriminate H; vm_compute; reflexivity.
Qed.

Lemma upper_empty : upper "" = "".
Proof. vm_compute. reflexivity. Qed.

Lemma high_not_lower c : (128 <=? nat_of_ascii c)%nat = true → is_lower c = false.
Proof.
  intros H%Nat.leb_le. unfold is_lower. apply andb_false_iff. right.
  apply Nat.leb_gt. lia.
Qed.

Lemma upper_char_no_lower pending :
  pending_ok pending = true → no_lower (upper_char pending) = true.
Proof.
  intros Hok. unfold upper_char.
  destruct (assoc pending upper_table) as [v|] eqn:Hassoc; simpl.
  { by apply upper_table_no_lower in Hassoc. }
  destruct pending as [|lead rest]; [done|]. simpl in Hok.
  apply orb_true_iff in Hok as [Hone|[Hlead Hrest]%andb_true_iff].
  - apply String.eqb_eq in Hone as ->. unfold no_lower; simpl.
    destruct (is_lower lead) eqn:Hlower; [|done].
    by apply lower_in_upper_table in Hlower.
  - unfold no_lower; cbn. apply andb_true_iff. split.
    + apply negb_true_iff, high_not_lower, Nat.leb_le.
      unfold is_lead in Hlead. apply Nat.leb_le in Hlead. lia.
    + apply forallb_forall. intros c Hc.
      apply negb_true_iff, high_not_lower.
      exact (proj1 (forallb_forall _ _) Hrest c Hc).
Qed.

Lemma no_lower_app (a b : string) :
  no_lower (a ++ b) = no_lower a && no_lower b.
Proof. unfold no_lower. by rewrite bytes_app, forallb_app. Qed.

Lemma upper_go_no_lower s : ∀ pending,
  pending_ok pending = true → no_lower (upper_go pending s) = true.
Proof.
  induction s as [|c rest IH]; intros pending Hok; simpl.
  { by apply upper_char_no_lower. }
  destruct (continues pending c) eqn:Hcont.
  - apply IH. destruct pending as [|lead more]; [done|].
    simpl in Hcont. apply andb_true_iff in Hcont as [Hlead Hc].
    apply andb_true_iff in Hc as [Hc _].
    change (String lead more ++ String c "")%string
      with (String lead (more ++ String c "")%string).
    cbn [pending_ok]. apply orb_true_iff. right. rewrite Hlead.
    rewrite bytes_app, forallb_app.
    change (list_ascii_of_string (String c "")) with [c].
    cbn [forallb andb]. rewrite Hc.
    cbn [pending_ok] in Hok.
    apply orb_true_iff in Hok as [Hone|[_ Hmore]%andb_true_iff].
    + by apply String.eqb_eq in Hone as ->.
    + by rewrite Hmore.
  - rewrite no_lower_app, upper_char_no_lower by done. by apply IH.
Qed.

Lemma upper_not_lower s :
  Forall (λ c, is_lower c = false) (list_ascii_of_string (upper s)).
Proof.
  pose proof (upper_go_no_lower s "" eq_refl) as Hall.
  apply Forall_forall. intros c Hc%list_elem_of_In.
  apply negb_true_iff. exact (proj1 (forallb_forall _ _) Hall c Hc).
Qed.

Lemma upper_go_ascii rest : ∀ c,
  (nat_of_ascii c <? 128)%nat = true → ascii_only rest = true →
  list_ascii_of_string (upper_go (String c "") rest) =
    upper_ascii c :: (upper_ascii <$> list_ascii_of_string rest).
Proof.
  induction rest as [|c' rest IH]; intros c Hc Hrest; simpl.
  { by rewrite upper_char_ascii. }
  unfold ascii_only in Hrest. simpl in Hrest.
  apply andb_true_iff in Hrest as [Hc' Hrest].
  assert (is_lead c = false) as ->.
  { unfold is_lead. apply Nat.leb_gt. apply Nat.ltb_lt in Hc. lia. }
  simpl. rewrite bytes_app, upper_char_ascii by done. simpl.
  by rewrite IH.
Qed.

(** On ASCII strings upper-casing is character by character. *)
Lemma upper_ascii_only s :
  ascii_only s = true →
  list_ascii_of_string (upper s) = upper_ascii <$> list_ascii_of_string s.
Proof.
  destruct s as [|c rest]; [by rewrite upper_empty|].
  unfold ascii_only; simpl. intros [Hc Hrest]%andb_true_iff.
  unfold upper; simpl. rewrite bytes_app.
  change (upper_char "") with (upper ""). rewrite upper_empty. simpl.
  by apply upper_go_ascii.
Qed.

Lemma normalize_item_well_formed now item :
  well_formed item →
  ∃ r, normalize_item now item = inr r ∧ observation_of item r.
Proof.
  destruct item as [| | | | |d]; try done. intros [Hsym Hchange].
  rewrite normalize_item_mapping, (symbol_text_or_null _ Hsym); simpl.
  eexists; split; [reflexivity|]. simpl.
  split; [done|]. split; [done|]. split.
  { intros s Hs Hascii. rewrite Hs. by apply upper_ascii_only. }
  repeat split. by apply change_number_or_null.
Qed.

(** C1, as stated, fails on records that are mappings.  A record whose
    [symbol] is a number makes [normalize_rows] raise, so no observation is
    produced; and a record whose 24h change is present and is the empty
    string gets [change_24h_pct] 0.0, which is not the record's value. *)
Lemma normalize_rows_not_every_mapping :
  (Forall mapping_shaped numeric_symbol_payload ∧
   fst (normalize_rows numeric_symbol_payload fresh_world) = inl AttributeError ∧
   ¬ ∃ rows, fst (normalize_rows numeric_symbol_payload fresh_world) = inr rows ∧
             length rows = length numeric_symbol_payload) ∧
  (Forall mapping_shaped empty_change_payload ∧
   ∃ r, fst (normalize_rows empty_change_payload fresh_world) = inr [r] ∧
        Frame.change_24h_pct r = VNum 0 ∧
        ¬ py_eq (Frame.change_24h_pct r) (VStr "")).
Proof.
  assert (fst (normalize_rows numeric_symbol_payload fresh_world)
          = inl AttributeError) as Hraise by (vm_compute; reflexivity).
  split.
  - split; [by repeat constructor|]. split; [exact Hraise|].
    intros (rows & Hrows & _). rewrite Hraise in Hrows. discriminate.
  - split; [by repeat constructor|]. eexists.
    split; [vm_compute; reflexivity|]. split; [reflexivity|]. simpl. discriminate.
Qed.

(** C1 (amended): for every payload whose records are mappings in which
    [symbol] is a string, null or absent and [price_change_percentage_24h] is a
    number, null or absent, [normalize_rows] returns exactly one observation
    per record, in input order ([Forall2]), where [coin_id] is the record's
    [id], [symbol] is the record's symbol upper-cased as [str.upper] does
    (on an ASCII symbol: a to z become A to Z, every other character stays;
    empty when missing or null), the price, market cap and volume pass
    through with missing or null as null, and [change_24h_pct] equals the
    record's 24h change, 0.0 when absent or null. *)
Theorem normalize_rows_one_per_record payload w :
  Forall well_formed payload →
  ∃ rows, fst (normalize_rows payload w) = inr rows ∧
          Forall2 observation_of payload rows.
Proof.
  intros Hwf. rewrite normalize_rows_unfold; simpl.
  set (now := strftime (clock w (ticks w))).
  assert (∃ rows, Forall2 (λ item r, normalize_item now item = inr r) payload rows
                  ∧ Forall2 observation_of payload rows) as (rows & Hnorm & Hobs).
  { induction Hwf as [|item rest Hitem _ (rows & Hnorm & Hobs)].
    - exists []. split; constructor.
    - destruct (normalize_item_well_formed now item Hitem) as (r & Hr & Hor).
      exists (r :: rows). split; by constructor. }
  exists rows. split; [|done].
  apply normalize_loop_spec. by exists rows.
Qed.

Lemma normalize_rows_one_per_record_witness :
  Forall well_formed sample_payload ∧
  ∃ rows, fst (normalize_rows sample_payload fresh_world) = inr rows ∧
          Forall2 observation_of sample_payload rows.
Proof.
  assert (Forall well_formed sample_payload) as Hwf
    by (repeat constructor; vm_compute; exact I).
  split; [exact Hwf|].
  exact (normalize_rows_one_per_record sample_payload fresh_world Hwf).
Defined.

Lemma normalize_rows_rows payload w rows :
  fst (normalize_rows payload w) = inr rows →
  Forall2 (λ item r, normalize_item (strftime (clock w (ticks w))) item = inr r)
          payload rows.
Proof.
  rewrite normalize_rows_unfold; simpl. intros Hloop.
  apply normalize_loop_spec in Hloop as (new & Hall & ->). done.
Qed.

(** C2: the clock is read exactly once by a call, whatever the payload (also
    when a record makes the call raise, so the reading precedes the records);
    the reading is rendered in UTC (offset [+0000]); and every row the call
    returns carries that one rendering as [ts_utc]. *)
Theorem normalize_rows_single_timestamp payload w :
  let now := strftime (clock w (ticks w)) in
  ticks (snd (normalize_rows payload w)) = S (ticks w) ∧
  (∃ local, now = (local ++ "+0000")%string) ∧
  ∀ rows, fst (normalize_rows payload w) = inr rows →
          Forall (λ r, Frame.ts_utc r = now) rows.
Proof.
  simpl. split; [reflexivity|]. split.
  - unfold strftime. by eexists.
  - intros rows Hrows%normalize_rows_rows.
    induction Hrows as [|item r rest rows Hitem _ IH]; constructor; [|done].
    by apply normalize_item_ts in Hitem.
Qed.

Lemma normalize_rows_single_timestamp_witness :
  ∃ rows, fst (normalize_rows sample_payload fresh_world) = inr rows ∧
          length rows = 2 ∧
          Forall (λ r, Frame.ts_utc r = "2024-01-01 00:00:00+0000") rows.
Proof.
  destruct (normalize_rows_single_timestamp sample_payload fresh_world)
    as (_ & _ & Hall).
  eexists. split; [vm_compute; reflexivity|]. split; [reflexivity|].
  apply Hall. vm_compute. reflexivity.
Defined.

(** C10: in the rows a call returns, a record whose
    [price_change_percentage_24h] key is present with a null value has
    [change_24h_pct] 0.0, and a record whose [symbol] key is present with a
    null value has the empty symbol; a null symbol never makes the record
    raise. *)
Theorem normalize_rows_explicit_null payload w rows i d :
  fst (normalize_rows payload w) = inr rows →
  payload !! i = Some (VDict d) →
  (∃ r, rows !! i = Some r ∧
        (d !! "price_change_percentage_24h" = Some VNone →
           Frame.change_24h_pct r = VNum 0) ∧
        (d !! "symbol" = Some VNone → Frame.symbol r = "")) ∧
  (d !! "symbol" = Some VNone →
     ∀ now, ∃ r, normalize_item now (VDict d) = inr r ∧ Frame.symbol r = "").
Proof.
  intros Hrows%normalize_rows_rows Hi. split.
  - destruct (Forall2_lookup_l _ _ _ _ _ Hrows Hi) as (r & Hr & Hitem).
    exists r. split; [done|]. rewrite normalize_item_mapping in Hitem.
    destruct (py_upper _) as [e|sym] eqn:Hupper; simpl in Hitem; [done|].
    injection Hitem as <-. simpl. split.
    + by intros ->.
    + intros Hsym. rewrite Hsym in Hupper. by injection Hupper as <-.
  - intros Hsym now. rewrite normalize_item_mapping, Hsym; simpl. by eexists.
Qed.

Lemma normalize_rows_explicit_null_witness :
  ∃ r, fst (normalize_rows null_fields_payload fresh_world) = inr [r] ∧
       Frame.change_24h_pct r = VNum 0 ∧ Frame.symbol r = "".
Proof.
  destruct (normalize_rows_explicit_null null_fields_payload fresh_world
              _ 0 _ ltac:(vm_compute; reflexivity) eq_refl)
    as ((r & Hr & Hchange & Hsymbol) & _).
  injection Hr as <-. eexists. split; [vm_compute; reflexivity|].
  split; [apply Hchange | apply Hsymbol]; vm_compute; reflexivity.
Defined.

(** ** Properties of load_into_sqlite *)

Lemma set_prices_same w : set_prices (prices w) w = w.
Proof. by destruct w. Qed.

Lemma insert_row_cases r w :
  (Prices.coin_id r = None ∧
   insert_row r w = (inl (IntegrityError NOT_NULL_coin_id), w)) ∨
  (Prices.coin_id r ≠ None ∧ Prices.key r ∈ (Prices.key <$> prices w) ∧
   insert_row r w = (inl (IntegrityError UNIQUE_ts_utc_coin_id), w)) ∨
  (Prices.coin_id r ≠ None ∧ (Prices.key r ∉ Prices.key <$> prices w) ∧
   insert_row r w = (inr tt, set_prices (prices w ++ [r]) w)).
Proof.
  unfold insert_row. destruct (Prices.coin_id r) eqn:Hid; [|by left].
  right. case_bool_decide; [left|right]; done.
Qed.

(** A failing batch leaves everything but the table as it was; the table is
    the connection's to roll back. *)
Lemma to_sql_raise df : ∀ w e w',
  to_sql df w = (inl e, w') →
  set_prices (prices w) w' = w ∧
  ((e = IntegrityError NOT_NULL_coin_id ∧ Exists (λ r, Prices.coin_id r = None) df) ∨
   e = IntegrityError UNIQUE_ts_utc_coin_id).
Proof.
  induction df as [|r rest IH]; intros w e w'; simpl; [done|].
  unfold bind.
  destruct (insert_row_cases r w) as [(Hnull & ->)|[(_ & _ & ->)|(_ & _ & ->)]].
  - intros [= <- <-]. split; [apply set_prices_same|]. left. split; [done|].
    by left.
  - intros [= <- <-]. split; [apply set_prices_same|]. by right.
  - intros Hrest. apply IH in Hrest as [Hw' Hkind]. split.
    + destruct w, w'; unfold set_prices in *; simpl in *. by simplify_eq.
    + destruct Hkind as [[-> Hex] | ->]; [left|by right]. split; [done|by right].
Qed.

Lemma to_sql_return df : ∀ w w',
  to_sql df w = (inr tt, w') → w' = set_prices (prices w ++ df) w.
Proof.
  induction df as [|r rest IH]; intros w w'; simpl.
  - intros [= <-]. rewrite app_nil_r. symmetry. apply set_prices_same.
  - unfold bind.
    destruct (insert_row_cases r w) as [(_ & ->)|[(_ & _ & ->)|(_ & _ & ->)]];
      [done..|].
    intros ->%IH. unfold set_prices; simpl. by rewrite <- app_assoc.
Qed.

Lemma to_sql_duplicate df : ∀ w r,
  r ∈ df → Prices.key r ∈ (Prices.key <$> prices w) →
  ∃ e w', to_sql df w = (inl e, w').
Proof.
  induction df as [|r0 rest IH]; intros w r Hin Hkey; [by apply elem_of_nil in Hin|].
  simpl. unfold bind.
  destruct (insert_row_cases r0 w) as [(_ & ->)|[(_ & _ & ->)|(_ & Hfresh & ->)]];
    [by eauto..|].
  apply elem_of_cons in Hin as [->|Hin]; [done|].
  apply (IH _ r Hin). simpl. rewrite fmap_app. apply elem_of_app. by left.
Qed.

Lemma load_into_sqlite_raise df w e w' :
  load_into_sqlite df w = (inl e, w') →
  w' = w ∧
  ((e = IntegrityError NOT_NULL_coin_id ∧ Exists (λ r, Prices.coin_id r = None) df) ∨
   e = IntegrityError UNIQUE_ts_utc_coin_id).
Proof.
  destruct df as [|r rest]; [done|].
  unfold load_into_sqlite, bind, with_connection.
  destruct (to_sql (r :: rest) w) as [[e'|[]] w''] eqn:Hsql; [|done].
  intros [= <- <-]. by apply to_sql_raise in Hsql as [-> ?].
Qed.

Lemma load_into_sqlite_return df w w' :
  load_into_sqlite df w = (inr tt, w') → prices w' = prices w ++ df.
Proof.
  destruct df as [|r rest].
  - intros [= <-]. simpl. by rewrite app_nil_r.
  - unfold load_into_sqlite, bind, with_connection.
    destruct (to_sql (r :: rest) w) as [[e'|[]] w''] eqn:Hsql; [done|].
    intros [= <-]. by apply to_sql_return in Hsql as ->.
Qed.

(** C6: when a batch contains a row whose [(ts_utc, coin_id)] is already in
    the table, the load raises the integrity error and the world after it is
    the world before it: no row of the batch is kept.  When no [coin_id] of
    the batch is null the error is the uniqueness violation. *)
Theorem load_duplicate_fails_whole_batch w df r :
  r ∈ df → Prices.key r ∈ (Prices.key <$> prices w) →
  ∃ c, load_into_sqlite df w = (inl (IntegrityError c), w) ∧
       (Forall (λ r, Prices.coin_id r ≠ None) df → c = UNIQUE_ts_utc_coin_id).
Proof.
  intros Hin Hkey.
  destruct (load_into_sqlite df w) as [[e|[]] w'] eqn:Hload.
  - apply load_into_sqlite_raise in Hload as [-> [[-> Hnull] | ->]];
      eexists; (split; [reflexivity|]); [|done].
    intros Hall. apply Exists_exists in Hnull as (r' & Hr' & Hnone).
    by apply (proj1 (Forall_forall _ _) Hall) in Hr'.
  - exfalso. destruct df as [|r0 rest]; [by apply elem_of_nil in Hin|].
    destruct (to_sql_duplicate _ w r Hin Hkey) as (e & w'' & Hsql).
    unfold load_into_sqlite, bind, with_connection in Hload.
    by rewrite Hsql in Hload.
Qed.

Lemma load_duplicate_fails_whole_batch_witness :
  btc ∈ [btc] ∧ Prices.key btc ∈ (Prices.key <$> prices seeded_world) ∧
  load_into_sqlite [btc] seeded_world =
    (inl (IntegrityError UNIQUE_ts_utc_coin_id), seeded_world).
Proof.
  assert (btc ∈ [btc]) as Hin by apply list_elem_of_here.
  assert (Prices.key btc ∈ (Prices.key <$> prices seeded_world)) as Hkey
    by (vm_compute; apply list_elem_of_further, list_elem_of_here).
  split; [exact Hin|]. split; [exact Hkey|].
  destruct (load_duplicate_fails_whole_batch seeded_world [btc] btc Hin Hkey)
    as (c & Hload & Hc).
  rewrite Hload, Hc; [reflexivity|]. by repeat constructor.
Defined.

(** C7: loading the empty frame raises nothing, leaves the table and the
    files as they are, and emits one record at level WARNING. *)
Theorem load_empty_is_noop w :
  let w' := snd (load_into_sqlite [] w) in
  fst (load_into_sqlite [] w) = inr tt ∧
  prices w' = prices w ∧ files w' = files w ∧
  clock w' = clock w ∧ ticks w' = ticks w ∧
  log w' = log w ++ [(WARNING, "No rows to load.")].
Proof. simpl. by repeat split. Qed.

(** C9: a load that returns leaves the table as the old rows followed by
    exactly the batch; a load that raises, [init_db], [normalize_rows] and
    [export_snapshots] leave the table as it is; so after any sequence of
    operations the old rows are still there, unchanged and in place. *)
Theorem store_is_append_only w :
  (∀ df w', load_into_sqlite df w = (inr tt, w') → prices w' = prices w ++ df) ∧
  (∀ df e w', load_into_sqlite df w = (inl e, w') → prices w' = prices w) ∧
  prices (snd (init_db w)) = prices w ∧
  (∀ payload, prices (snd (normalize_rows payload w)) = prices w) ∧
  prices (snd (export_snapshots w)) = prices w ∧
  ∀ ops, prices w `prefix_of` prices (run_ops ops w).
Proof.
  assert (∀ o v, prices v `prefix_of` prices (snd (run_op o v))) as Hop.
  { intros [|payload|df|] v; simpl; try done.
    - unfold bind. rewrite normalize_rows_unfold.
      by destruct (normalize_loop _ _ _).
    - destruct (load_into_sqlite df v) as [[e|[]] v'] eqn:Hload; simpl.
      + by apply load_into_sqlite_raise in Hload as [-> _].
      + apply load_into_sqlite_return in Hload as ->. by apply prefix_app_r. }
  split; [intros df w'; apply load_into_sqlite_return|].
  split; [by intros df e w' [-> _]%load_into_sqlite_raise|].
  do 3 (split; [done|]).
  intros ops. revert w. induction ops as [|o ops IH]; intros w; simpl; [done|].
  etrans; [apply (Hop o)|apply IH].
Qed.

Lemma store_is_append_only_witness :
  load_into_sqlite [btc; eth] (set_prices [eth_before] fresh_world) =
    (inr tt, snd (load_into_sqlite [btc; eth] (set_prices [eth_before] fresh_world))) ∧
  prices (snd (load_into_sqlite [btc; eth] (set_prices [eth_before] fresh_world))) =
    [eth_before; btc; eth].
Proof.
  assert (load_into_sqlite [btc; eth] (set_prices [eth_before] fresh_world) =
    (inr tt, snd (load_into_sqlite [btc; eth] (set_prices [eth_before] fresh_world))))
    as Hload by (vm_compute; reflexivity).
  split; [exact Hload|].
  exact (proj1 (store_is_append_only (set_prices [eth_before] fresh_world)) _ _ Hload).
Defined.

(** ** Properties of export_snapshots *)

Lemma desc_leb_spec a b : Is_true (desc_leb a b) ↔ non_increasing a b.
Proof.
  destruct a as [x|], b as [y|]; simpl; try done.
  rewrite Is_true_true. apply Qle_bool_iff.
Qed.

Global Instance desc_by_total col : Total (desc_by col).
Proof.
  intros r1 r2. unfold desc_by. rewrite !desc_leb_spec.
  destruct (col r1) as [x|], (col r2) as [y|]; simpl; auto.
  destruct (Qlt_le_dec x y) as [Hlt|Hle]; [right|left]; [|done].
  by apply Qlt_le_weak.
Qed.

Global Instance desc_by_trans col : Transitive (desc_by col).
Proof.
  intros r1 r2 r3. unfold desc_by. rewrite !desc_leb_spec.
  destruct (col r1) as [x|], (col r2) as [y|], (col r3) as [z|]; simpl; try done.
  intros Hyx Hzy. by apply Qle_trans with y.
Qed.

Lemma StronglySorted_weaken {A} (R R' : relation A) l :
  (∀ x y, R x y → R' x y) → StronglySorted R l → StronglySorted R' l.
Proof.
  intros HR. induction 1 as [|x l _ IH Hall]; constructor; [done|].
  eapply Forall_impl; [exact Hall|]. auto.
Qed.

Lemma sort_values_sorted col frame :
  StronglySorted (λ r1 r2, non_increasing (col r1) (col r2)) (sort_values col frame).
Proof.
  apply (StronglySorted_weaken (desc_by col)).
  - intros r1 r2. apply desc_leb_spec.
  - apply StronglySorted_merge_sort; apply _.
Qed.

Lemma sort_values_Permutation col frame : sort_values col frame ≡ₚ frame.
Proof. apply merge_sort_Permutation. Qed.

Lemma sql_max_fold ts : ∀ acc,
  match foldl (λ acc t, match acc with
                        | None => Some t
                        | Some m => Some (if String.leb t m then m else t)
                        end) acc ts with
  | None => acc = None ∧ ts = []
  | Some m =>
      (Some m = acc ∨ m ∈ ts) ∧
      (∀ t, Some t = acc ∨ t ∈ ts → String.le t m)
  end.
Proof.
  induction ts as [|t ts IH]; intros acc; simpl.
  - destruct acc as [m|]; [|done]. split; [by left|].
    intros t [[= ->]|Hin]; [done|]. by apply elem_of_nil in Hin.
  - match goal with |- context [foldl _ ?a ts] => specialize (IH a) end.
    destruct (foldl _ _ ts) as [m|]; [|by destruct acc, IH].
    destruct IH as [Hmem Hub]. split.
    + destruct Hmem as [Hacc|Hin]; [|right; by right].
      destruct acc as [m0|]; [|injection Hacc as ->; right; by left].
      destruct (String.leb t m0) eqn:Hle; injection Hacc as ->;
        [by left|right; by left].
    + intros t' [Hacc|[->|Hin]%elem_of_cons].
      * destruct acc as [m0|]; [|done]. injection Hacc as <-.
        destruct (String.leb t t') eqn:Hle; [apply Hub; by left|].
        transitivity t; [|apply Hub; by left].
        destruct (total String.le t' t) as [?|Hle']; [done|].
        unfold String.le in Hle'. by rewrite Hle in Hle'.
      * destruct acc as [m0|]; [|apply Hub; by left].
        destruct (String.leb t m0) eqn:Hle; [|apply Hub; by left].
        transitivity m0; [|apply Hub; by left].
        unfold String.le. by rewrite Hle.
      * apply Hub. by right.
Qed.

(** [MAX] returns the greatest value of the column. *)
Lemma sql_max_greatest ts T :
  T ∈ ts → (∀ t, t ∈ ts → String.le t T) → sql_max ts = Some T.
Proof.
  intros Hin Hub. unfold sql_max.
  pose proof (sql_max_fold ts None) as Hmax.
  destruct (foldl _ _ ts) as [m|].
  - destruct Hmax as [[[=]|Hm] Hle]. f_equal.
    apply (anti_symm String.le); [by apply Hub|]. apply Hle. by right.
  - destruct Hmax as [_ ->]. by apply elem_of_nil in Hin.
Qed.

Lemma export_snapshots_unfold w :
  export_snapshots w =
    (inr tt,
     {| clock := clock w; ticks := ticks w; prices := prices w;
        files := <[movers_path := to_csv (movers_report (prices w))]>
                   (<[snap_path := to_csv (snapshot_report (prices w))]> (files w));
        log := (log w ++ [(INFO, ("Wrote " ++ snap_path)%string)])
                 ++ [(INFO, ("Wrote " ++ movers_path)%string)] |}).
Proof. reflexivity. Qed.

Lemma exported_snapshot w :
  files (snd (export_snapshots w)) !! snap_path =
    Some (to_csv (snapshot_report (prices w))).
Proof.
  rewrite export_snapshots_unfold; simpl.
  rewrite lookup_insert_ne by done. apply lookup_insert_eq.
Qed.

Lemma exported_movers w :
  files (snd (export_snapshots w)) !! movers_path =
    Some (to_csv (movers_report (prices w))).
Proof. rewrite export_snapshots_unfold; simpl. apply lookup_insert_eq. Qed.

Lemma snapshot_report_latest table T :
  sql_max (Prices.ts_utc <$> table) = Some T →
  snapshot_report table ≡ₚ
    select_columns <$> filter (λ r, Prices.ts_utc r = T) table.
Proof.
  intros Hmax. unfold snapshot_report. rewrite Hmax, merge_sort_Permutation.
  f_equiv. erewrite list_filter_iff; [done|].
  intros r; simpl. split.
  - intros [= Heq]. by apply String.eqb_eq.
  - intros ->. by rewrite String.eqb_refl.
Qed.

(** C3: when [T2] is the greatest [ts_utc] of the table, [export_snapshots]
    returns and writes two reports that each hold exactly the rows whose
    [ts_utc] is [T2] (the same rows in both, up to order); every row of either
    report carries [T2], so no row of an earlier timestamp is exported. *)
Theorem export_latest_timestamp_only w T2 :
  T2 ∈ (Prices.ts_utc <$> prices w) →
  (∀ r, r ∈ prices w → String.le (Prices.ts_utc r) T2) →
  ∃ snap movers,
    fst (export_snapshots w) = inr tt ∧
    files (snd (export_snapshots w)) !! snap_path = Some (to_csv snap) ∧
    files (snd (export_snapshots w)) !! movers_path = Some (to_csv movers) ∧
    snap ≡ₚ select_columns <$> filter (λ r, Prices.ts_utc r = T2) (prices w) ∧
    movers ≡ₚ snap ∧
    Forall (λ x, Snap.ts_utc x = T2) snap ∧
    Forall (λ x, Snap.ts_utc x = T2) movers.
Proof.
  intros Hin Hub.
  assert (sql_max (Prices.ts_utc <$> prices w) = Some T2) as Hmax.
  { apply sql_max_greatest; [done|].
    intros t (r & -> & Hr)%list_elem_of_fmap. by apply Hub. }
  pose proof (snapshot_report_latest _ _ Hmax) as Hsnap.
  assert (Forall (λ x, Snap.ts_utc x = T2) (snapshot_report (prices w))) as Hall.
  { rewrite Hsnap. apply Forall_fmap, Forall_forall.
    by intros r [? _]%list_elem_of_filter. }
  exists (snapshot_report (prices w)), (movers_report (prices w)).
  split; [done|]. split; [apply exported_snapshot|].
  split; [apply exported_movers|]. split; [done|].
  split; [apply sort_values_Permutation|]. split; [done|].
  unfold movers_report. by rewrite sort_values_Permutation.
Qed.

Lemma export_latest_timestamp_only_witness :
  "2024-01-01 00:00:00+0000" ∈ (Prices.ts_utc <$> prices seeded_world) ∧
  ∃ snap movers,
    files (snd (export_snapshots seeded_world)) !! snap_path = Some (to_csv snap) ∧
    files (snd (export_snapshots seeded_world)) !! movers_path = Some (to_csv movers) ∧
    snap ≡ₚ select_columns <$> [btc; eth] ∧ movers ≡ₚ snap.
Proof.
  split; [apply list_elem_of_further, list_elem_of_here|].
  destruct (export_latest_timestamp_only seeded_world "2024-01-01 00:00:00+0000")
    as (snap & movers & _ & Hsnap & Hmovers & Hrows & Hsame & _).
  - apply list_elem_of_further, list_elem_of_here.
  - intros r Hr. repeat (apply elem_of_cons in Hr as [->|Hr]); try done.
    by apply elem_of_nil in Hr.
  - by exists snap, movers.
Defined.

(** C4: the snapshot report is non-increasing in [market_cap_usd] with nulls
    last, and the movers report is the same rows, non-increasing in
    [change_24h_pct] with nulls last: every row stands before all later rows
    in that order. *)
Theorem export_reports_sorted w :
  ∃ snap movers,
    files (snd (export_snapshots w)) !! snap_path = Some (to_csv snap) ∧
    files (snd (export_snapshots w)) !! movers_path = Some (to_csv movers) ∧
    StronglySorted
      (λ r1 r2, non_increasing (Snap.market_cap_usd r1) (Snap.market_cap_usd r2))
      snap ∧
    movers ≡ₚ snap ∧
    StronglySorted
      (λ r1 r2, non_increasing (Snap.change_24h_pct r1) (Snap.change_24h_pct r2))
      movers.
Proof.
  exists (snapshot_report (prices w)), (movers_report (prices w)).
  split; [apply exported_snapshot|]. split; [apply exported_movers|].
  split; [apply (sort_values_sorted Snap.market_cap_usd)|].
  split; [apply sort_values_Permutation|]. apply sort_values_sorted.
Qed.

(** C5, as stated, fails: the header of the written snapshot is not the
    column list of the data model, and has no [source] column. *)
Lemma export_header_not_data_model :
  ∃ f, files (snd (export_snapshots seeded_world)) !! snap_path = Some f ∧
       header f ≠ Prices.columns ∧ ("source" ∉ header f) ∧
       header f !! 0 = Some "coin_id".
Proof.
  eexists. split; [apply exported_snapshot|]. simpl.
  split; [discriminate|]. split; [|reflexivity].
  intros Hin. repeat (apply elem_of_cons in Hin as [[=]|Hin]).
  by apply elem_of_nil in Hin.
Qed.

(** C5 (amended): both files written by [export_snapshots] have the header
    [coin_id, symbol, ts_utc, price_usd, market_cap_usd, volume_24h_usd,
    change_24h_pct] (the [SELECT] list; [source] is not exported) followed by
    one line per row of the report, the cells of a line in header order; the
    number of lines is the number of table rows at the latest timestamp. *)
Theorem export_csv_layout w :
  ∃ snap movers,
    files (snd (export_snapshots w)) !! snap_path = Some snap ∧
    files (snd (export_snapshots w)) !! movers_path = Some movers ∧
    header snap =
      ["coin_id"; "symbol"; "ts_utc"; "price_usd"; "market_cap_usd";
       "volume_24h_usd"; "change_24h_pct"] ∧
    header movers = header snap ∧
    body snap = csv_line <$> snapshot_report (prices w) ∧
    body movers = csv_line <$> movers_report (prices w) ∧
    length (body snap) =
      length (filter (λ r, Some (Prices.ts_utc r) =
                             sql_max (Prices.ts_utc <$> prices w)) (prices w)) ∧
    length (body movers) = length (body snap) ∧
    Forall (λ line, length line = length (header snap)) (body snap ++ body movers).
Proof.
  exists (to_csv (snapshot_report (prices w))), (to_csv (movers_report (prices w))).
  split; [apply exported_snapshot|]. split; [apply exported_movers|].
  do 4 (split; [done|]). simpl. split; [|split].
  - rewrite length_fmap. unfold snapshot_report.
    rewrite merge_sort_Permutation, length_fmap. f_equal.
    apply list_filter_iff. intros r. destruct (sql_max _) as [T|]; simpl; [|done].
    split.
    + intros [= Heq]. by apply String.eqb_eq in Heq as ->.
    + intros [= ->]. by rewrite String.eqb_refl.
  - rewrite !length_fmap. unfold movers_report.
    by rewrite sort_values_Permutation.
  - rewrite <- fmap_app. apply Forall_fmap, Forall_forall. by intros r _.
Qed.

(** C8, as stated, fails: a store that was never initialised holds no
    observation, yet [export_snapshots] raises there (no such table) and
    writes no file; so does the command [analyze] before any fetch. *)
Lemma export_before_init_raises :
  rows (NoTable fresh_world) = [] ∧
  Db.export_snapshots (NoTable fresh_world) =
    (inl (DatabaseError NO_SUCH_TABLE), NoTable fresh_world) ∧
  files fresh_world !! snap_path = None ∧
  Db.main Analyze None (NoTable fresh_world) =
    Some (Uncaught (DatabaseError NO_SUCH_TABLE), NoTable fresh_world).
Proof. repeat split. Qed.

(** C8 (amended): on a store whose table [prices] exists and holds no row,
    [export_snapshots] raises nothing: the maximum timestamp is NULL, the
    detail query with that parameter selects no row, and both files are
    written with the header and no line; the table stays empty. *)
Theorem export_empty_store w :
  prices w = [] →
  ∃ w',
    Db.export_snapshots (Table w) = (inr tt, Table w') ∧
    fst (select_max_ts w) = inr None ∧
    fst (select_snapshot None w) = inr [] ∧
    prices w' = [] ∧
    files w' !! snap_path = Some {| header := Snap.columns; body := [] |} ∧
    files w' !! movers_path = Some {| header := Snap.columns; body := [] |}.
Proof.
  intros Hempty. exists (snd (export_snapshots w)).
  unfold Db.export_snapshots. rewrite export_snapshots_unfold; simpl.
  split; [done|].
  unfold select_max_ts, select_snapshot, movers_report, snapshot_report.
  rewrite Hempty; simpl.
  split; [done|]. split; [done|]. split; [done|].
  split; [by rewrite lookup_insert_ne, lookup_insert_eq|].
  by rewrite lookup_insert_eq.
Qed.

Lemma export_empty_store_witness :
  prices fresh_world = [] ∧
  ∃ w', Db.export_snapshots (Table fresh_world) = (inr tt, Table w') ∧
        files w' !! snap_path = Some {| header := Snap.columns; body := [] |} ∧
        files w' !! movers_path = Some {| header := Snap.columns; body := [] |}.
Proof.
  split; [reflexivity|].
  destruct (export_empty_store fresh_world eq_refl)
    as (w' & Hret & _ & _ & _ & Hsnap & Hmovers).
  by exists w'.
Defined.

(** The end-to-end scenario of the specification: bitcoin leads the snapshot,
    ethereum leads the movers, and the earlier observation is left out. *)
Example export_seeded_world :
  Snap.coin_id <$> snapshot_report (prices seeded_world) =
    [Some "bitcoin"; Some "ethereum"] ∧
  Snap.coin_id <$> movers_report (prices seeded_world) =
    [Some "ethereum"; Some "bitcoin"].
Proof. split; vm_compute; reflexivity. Qed.

(** Fetch then analyze on a fresh store: the normalized sample payload, bound
    to the table's types, is loaded and exported. *)
Example fetch_then_export_sample :
  ∃ frame df w1,
    normalize_rows sample_payload fresh_world = (inr frame, w1) ∧
    mapM bind_row frame = Some df ∧
    fst (load_into_sqlite df w1) = inr tt ∧
    Prices.coin_id <$> prices (snd (load_into_sqlite df w1)) =
      [Some "bitcoin"; Some "ethereum"] ∧
    Snap.symbol <$> snapshot_report (prices (snd (load_into_sqlite df w1))) =
      ["BTC"; ""].
Proof. do 3 eexists. repeat split; vm_compute; reflexivity. Qed.

(** ** Further properties of normalize_rows *)

Lemma normalize_item_accepts now item :
  match normalize_item now item with
  | inr _ => accepts item = true
  | inl e => e = AttributeError ∧ accepts item = false
  end.
Proof.
  destruct item as [| | | | |d]; try done.
  rewrite normalize_item_mapping. unfold accepts, py_or.
  destruct (default VNone (d !! "symbol")) as [|[]|q|s|[|x l]|m]; simpl; try done.
  - by destruct (Qeq_bool q 0).
  - by destruct (String.eqb s "").
  - by case_bool_decide.
Qed.

(** X1: [normalize_rows] returns a frame exactly when every record is a
    mapping whose [symbol] is a string or falsy, and then the frame has one
    row per record; in every other case it raises [AttributeError]. *)
Theorem normalize_rows_returns_iff payload w :
  ((∃ rows, fst (normalize_rows payload w) = inr rows) ↔
     forallb accepts payload = true) ∧
  (fst (normalize_rows payload w) = inl AttributeError ↔
     forallb accepts payload = false) ∧
  (∀ rows, fst (normalize_rows payload w) = inr rows →
           length rows = length payload).
Proof.
  rewrite normalize_rows_unfold; simpl.
  set (now := strftime (clock w (ticks w))).
  assert (∀ acc,
    match normalize_loop now payload acc with
    | inr rows => forallb accepts payload = true ∧
                  length rows = length acc + length payload
    | inl e => e = AttributeError ∧ forallb accepts payload = false
    end) as Hloop.
  { induction payload as [|item rest IH]; intros acc; simpl.
    - split; [done|lia].
    - pose proof (normalize_item_accepts now item) as Hitem.
      destruct (normalize_item now item) as [e|r]; simpl.
      + destruct Hitem as [-> ->]. done.
      + rewrite Hitem; simpl. specialize (IH (acc ++ [r])).
        destruct (normalize_loop now rest (acc ++ [r])); [done|].
        destruct IH as [? Hlen]. split; [done|].
        rewrite Hlen, length_app; simpl. lia. }
  specialize (Hloop []).
  destruct (normalize_loop now payload []) as [e|rows].
  - destruct Hloop as [-> Hacc]. rewrite Hacc. split; [|split].
    + split; [by intros [? [=]]|done].
    + done.
    + done.
  - destruct Hloop as [Hacc Hlen]. rewrite Hacc. split; [|split].
    + split; [done|eauto].
    + done.
    + by intros ? [= <-].
Qed.

Lemma py_or_zero_cases v :
  let c := py_or v (VNum 0) in (truthy c = true ∧ c = v) ∨ c = VNum 0.
Proof. unfold py_or. destruct (truthy v) eqn:Hv; [left|right]; by rewrite ?Hv. Qed.

(** X2: whatever the payload holds, every row of a returned frame has the
    source tag [coingecko], a symbol without lower-case ASCII letters, and a
    [change_24h_pct] that is either the number 0 or a truthy value: never
    null, [False], an empty string or an empty container. *)
Theorem normalize_rows_row_invariants payload w rows :
  fst (normalize_rows payload w) = inr rows →
  Forall (λ r,
    Frame.source r = "coingecko" ∧
    Forall (λ c, is_lower c = false) (list_ascii_of_string (Frame.symbol r)) ∧
    (Frame.change_24h_pct r = VNum 0 ∨ truthy (Frame.change_24h_pct r) = true))
    rows.
Proof.
  intros Hrows%normalize_rows_rows.
  induction Hrows as [|item r rest rows Hitem _ IH]; constructor; [|done].
  destruct item as [| | | | |d]; try done.
  rewrite normalize_item_mapping in Hitem.
  destruct (py_upper _) as [e|sym] eqn:Hupper; simpl in Hitem; [done|].
  injection Hitem as <-. simpl. split; [done|]. split.
  - destruct (py_or _ (VStr "")); try done. injection Hupper as <-.
    apply upper_not_lower.
  - destruct (py_or_zero_cases
                (default VNone (d !! "price_change_percentage_24h")))
      as [[? _]|?]; auto.
Qed.

Lemma normalize_rows_row_invariants_witness :
  ∃ r, fst (normalize_rows falsy_fields_payload fresh_world) = inr [r] ∧
       Frame.symbol r = "" ∧ Frame.price_usd r = VNum 0 ∧
       Frame.change_24h_pct r = VNum 0 ∧ Frame.source r = "coingecko".
Proof.
  eexists. split; [vm_compute; reflexivity|].
  pose proof (normalize_rows_row_invariants falsy_fields_payload fresh_world _
                ltac:(vm_compute; reflexivity)) as Hinv.
  apply Forall_cons in Hinv as [(Hsource & _ & _) _].
  repeat split; try exact Hsource; vm_compute; reflexivity.
Defined.

Lemma normalize_rows_returns_iff_witness :
  forallb accepts list_symbol_payload = false ∧
  fst (normalize_rows list_symbol_payload fresh_world) = inl AttributeError.
Proof.
  assert (forallb accepts list_symbol_payload = false) as Hacc
    by (vm_compute; reflexivity).
  split; [exact Hacc|].
  by apply (normalize_rows_returns_iff list_symbol_payload fresh_world).
Defined.

(** ** Further properties of load_into_sqlite *)

Lemma to_sql_returns_iff df : ∀ w,
  (∃ w', to_sql df w = (inr tt, w')) ↔ insertable (prices w) df.
Proof.
  unfold insertable.
  induction df as [|r rest IH]; intros w; simpl.
  - split; [|by eauto]. intros _. split; [constructor|].
    split; [constructor|]. by intros r ?%elem_of_nil.
  - unfold bind. rewrite NoDup_cons, Forall_cons.
    destruct (insert_row_cases r w)
      as [(Hnull & ->)|[(Hid & Hdup & ->)|(Hid & Hfresh & ->)]].
    + split; [by intros [? [=]]|]. by intros [[? _] _].
    + split; [by intros [? [=]]|]. intros (_ & _ & Hnew).
      destruct (Hnew r); [by left|done].
    + rewrite IH; simpl. rewrite fmap_app; simpl. split.
      * intros (Hall & Hnodup & Hnew). split; [done|]. split.
        -- split; [|done]. intros (r' & Hkey & Hr')%list_elem_of_fmap.
           apply (Hnew r' Hr'), elem_of_app. right. rewrite <- Hkey. by left.
        -- intros r' [->|Hr']%elem_of_cons; [done|].
           intros Hin. apply (Hnew r' Hr'), elem_of_app. by left.
      * intros ([_ Hall] & [Hhead Hnodup] & Hnew). split; [done|].
        split; [done|]. intros r' Hr' [Hin|Hin]%elem_of_app.
        -- apply (Hnew r'); [by right|done].
        -- apply list_elem_of_singleton in Hin. apply Hhead.
           rewrite <- Hin. by apply list_elem_of_fmap_2.
Qed.

(** X3: the outcome of a load is decided by the constraints alone.  A batch
    with no null [coin_id], no key twice and no key of the table is appended
    whole, the files and the clock stay as they are and one record is logged
    (a warning for the empty batch, the row count otherwise); any other
    batch raises [IntegrityError] and leaves the whole world, log included,
    exactly as it was. *)
Theorem load_into_sqlite_outcome w df :
  (insertable (prices w) df →
     ∃ w', load_into_sqlite df w = (inr tt, w') ∧
           prices w' = prices w ++ df ∧
           files w' = files w ∧ clock w' = clock w ∧ ticks w' = ticks w ∧
           log w' = log w ++
             [match df with
              | [] => (WARNING, "No rows to load.")
              | _ => (INFO, ("Loaded " ++ digits (length df) ++ " rows into "
                             ++ DB_PATH ++ " (prices).")%string)
              end]) ∧
  (¬ insertable (prices w) df →
     ∃ c, load_into_sqlite df w = (inl (IntegrityError c), w)).
Proof.
  split.
  - intros Hok. destruct df as [|r rest].
    + eexists. split; [reflexivity|]. simpl. by rewrite app_nil_r.
    + apply to_sql_returns_iff in Hok as [w1 Hsql].
      unfold load_into_sqlite, bind, with_connection. rewrite Hsql.
      apply to_sql_return in Hsql as ->. eexists. split; [reflexivity|]. done.
  - intros Hbad. destruct (load_into_sqlite df w) as [[e|[]] w'] eqn:Hload.
    + apply load_into_sqlite_raise in Hload as [-> [[-> _] | ->]]; by eexists.
    + destruct Hbad. destruct df as [|r rest].
      * split; [constructor|]. split; [constructor|]. by intros r ?%elem_of_nil.
      * apply to_sql_returns_iff.
        unfold load_into_sqlite, bind, with_connection in Hload.
        destruct (to_sql (r :: rest) w) as [[e|[]] w1]; [done|by eexists].
Qed.

Lemma load_into_sqlite_outcome_witness :
  ¬ insertable (prices fresh_world) [btc; eth; btc] ∧
  load_into_sqlite [btc; eth; btc] fresh_world =
    (inl (IntegrityError UNIQUE_ts_utc_coin_id), fresh_world).
Proof.
  assert (¬ insertable (prices fresh_world) [btc; eth; btc]) as Hbad.
  { intros (_ & Hnodup & _). apply NoDup_cons in Hnodup as [Hhead _].
    apply Hhead. apply list_elem_of_further, list_elem_of_here. }
  split; [exact Hbad|].
  destruct (proj2 (load_into_sqlite_outcome fresh_world [btc; eth; btc]) Hbad)
    as [c Hload].
  rewrite Hload. f_equal. f_equal.
  assert (load_into_sqlite [btc; eth; btc] fresh_world =
          (inl (IntegrityError UNIQUE_ts_utc_coin_id), fresh_world)) as Hrun
    by (vm_compute; reflexivity).
  rewrite Hrun in Hload. by injection Hload as <-.
Defined.

Lemma table_ok_app table df :
  table_ok table → insertable table df → table_ok (table ++ df).
Proof.
  intros [Hnodup Hall] (Hnew & Hnodup' & Hfresh). split.
  - rewrite fmap_app. apply NoDup_app. split; [done|]. split; [|done].
    intros k Hk (r & -> & Hr)%list_elem_of_fmap. by apply (Hfresh r Hr).
  - by apply Forall_app.
Qed.

(** X4: the primary key is an invariant of the program.  If no
    [(ts_utc, coin_id)] occurs twice in the table and no [coin_id] is null,
    the same holds after every operation and after every sequence of
    operations, whether they return or raise. *)
Theorem table_ok_preserved ops w :
  table_ok (prices w) → table_ok (prices (run_ops ops w)).
Proof.
  revert w. induction ops as [|o ops IH]; intros w Hok; simpl; [done|].
  apply IH. destruct o as [|payload|df|]; simpl; try done.
  - unfold bind. rewrite normalize_rows_unfold.
    by destruct (normalize_loop _ _ _).
  - destruct (load_into_sqlite df w) as [[e|[]] w'] eqn:Hload; simpl.
    + by apply load_into_sqlite_raise in Hload as [-> _].
    + assert (insertable (prices w) df) as Hins.
      { destruct (decide (df = [])) as [->|Hne].
        - split; [constructor|]. split; [constructor|]. by intros r ?%elem_of_nil.
        - apply to_sql_returns_iff. destruct df as [|r rest]; [done|].
          unfold load_into_sqlite, bind, with_connection in Hload.
          destruct (to_sql (r :: rest) w) as [[e|[]] w1]; [done|by eexists]. }
      apply load_into_sqlite_return in Hload as ->. by apply table_ok_app.
Qed.

Lemma table_ok_preserved_witness :
  table_ok (prices fresh_world) ∧
  table_ok (prices (run_ops [OpInit; OpLoad [btc; eth]; OpLoad [btc];
                             OpExport; OpLoad [eth_before]] fresh_world)) ∧
  prices (run_ops [OpInit; OpLoad [btc; eth]; OpLoad [btc];
                   OpExport; OpLoad [eth_before]] fresh_world) =
    [btc; eth; eth_before].
Proof.
  assert (table_ok (prices fresh_world)) as Hok by (split; constructor).
  split; [exact Hok|]. split; [|vm_compute; reflexivity].
  exact (table_ok_preserved _ fresh_world Hok).
Defined.

(** ** Further properties of export_snapshots *)

Lemma sql_max_is_greatest ts :
  ts ≠ [] → ∃ T, sql_max ts = Some T ∧ T ∈ ts ∧ ∀ t, t ∈ ts → String.le t T.
Proof.
  intros Hne. unfold sql_max. pose proof (sql_max_fold ts None) as Hmax.
  destruct (foldl _ _ ts) as [m|]; [|by destruct Hmax].
  destruct Hmax as [[[=]|Hin] Hub]. exists m. split; [done|]. split; [done|].
  intros t Ht. apply Hub. by right.
Qed.

Lemma filter_all {A} (P : A → Prop) `{∀ x, Decision (P x)} (l : list A) :
  Forall P l → filter P l = l.
Proof.
  induction 1 as [|x l Hx _ IH]; [done|]. by rewrite filter_cons_True, IH.
Qed.

Lemma filter_none {A} (P : A → Prop) `{∀ x, Decision (P x)} (l : list A) :
  Forall (λ x, ¬ P x) l → filter P l = [].
Proof.
  induction 1 as [|x l Hx _ IH]; [done|]. by rewrite filter_cons_False.
Qed.

(** X5: on a table that is not empty, [export_snapshots] finds the greatest
    [ts_utc] of the table and writes two reports that are not empty, have the
    same number of rows and carry that timestamp in every row. *)
Theorem export_nonempty_store w :
  prices w ≠ [] →
  let snap := snapshot_report (prices w) in
  let movers := movers_report (prices w) in
  ∃ T,
    fst (select_max_ts w) = inr (Some T) ∧
    T ∈ (Prices.ts_utc <$> prices w) ∧
    (∀ r, r ∈ prices w → String.le (Prices.ts_utc r) T) ∧
    files (snd (export_snapshots w)) !! snap_path = Some (to_csv snap) ∧
    files (snd (export_snapshots w)) !! movers_path = Some (to_csv movers) ∧
    snap ≠ [] ∧ length movers = length snap ∧
    Forall (λ x, Snap.ts_utc x = T) (snap ++ movers).
Proof.
  intros Hne.
  destruct (sql_max_is_greatest (Prices.ts_utc <$> prices w))
    as (T & Hmax & Hin & Hub).
  { by destruct (prices w). }
  pose proof (snapshot_report_latest _ _ Hmax) as Hsnap.
  exists T.
  split; [by unfold select_max_ts; simpl; rewrite Hmax|]. split; [done|].
  split; [intros r Hr; by apply Hub, list_elem_of_fmap_2|].
  split; [apply exported_snapshot|]. split; [apply exported_movers|].
  split; [|split].
  - apply list_elem_of_fmap in Hin as (r & -> & Hr).
    assert (select_columns r ∈ snapshot_report (prices w)) as Hrow.
    { rewrite Hsnap. apply list_elem_of_fmap_2, list_elem_of_filter. done. }
    intros Hnil. rewrite Hnil in Hrow. by apply elem_of_nil in Hrow.
  - unfold movers_report. by rewrite sort_values_Permutation.
  - unfold movers_report. rewrite sort_values_Permutation, Hsnap.
    apply Forall_app. rewrite Forall_fmap.
    split; apply Forall_forall; by intros r [? _]%list_elem_of_filter.
Qed.

Lemma export_nonempty_store_witness :
  prices seeded_world ≠ [] ∧
  fst (select_max_ts seeded_world) = inr (Some "2024-01-01 00:00:00+0000").
Proof.
  assert (prices seeded_world ≠ []) as Hne by done.
  split; [exact Hne|].
  destruct (export_nonempty_store seeded_world Hne) as (T & HT & _).
  rewrite HT. do 2 f_equal.
  assert (fst (select_max_ts seeded_world)
          = inr (Some "2024-01-01 00:00:00+0000")) as Hrun
    by (vm_compute; reflexivity).
  rewrite Hrun in HT. by injection HT as <-.
Defined.

Lemma NoDup_snd_same_fst {A B} (a : A) (l : list (A * B)) :
  Forall (λ p, fst p = a) l → NoDup l → NoDup (snd <$> l).
Proof.
  intros Hall Hnodup. apply NoDup_fmap_2_strong; [|done].
  intros [a1 b1] [a2 b2] H1 H2; simpl; intros ->.
  rewrite Forall_forall in Hall.
  apply Hall in H1, H2; simpl in *. by subst.
Qed.

(** X6: when the table satisfies its primary key, each report has at most
    one row per coin: no [coin_id] occurs twice in the snapshot or in the
    movers, and none is null. *)
Theorem export_one_row_per_coin w :
  table_ok (prices w) →
  let snap := snapshot_report (prices w) in
  let movers := movers_report (prices w) in
  files (snd (export_snapshots w)) !! snap_path = Some (to_csv snap) ∧
  files (snd (export_snapshots w)) !! movers_path = Some (to_csv movers) ∧
  NoDup (Snap.coin_id <$> snap) ∧ NoDup (Snap.coin_id <$> movers) ∧
  Forall (λ x, Snap.coin_id x ≠ None) (snap ++ movers).
Proof.
  intros [Hnodup Hall] snap movers. subst snap movers.
  split; [apply exported_snapshot|]. split; [apply exported_movers|].
  assert (NoDup (Snap.coin_id <$> snapshot_report (prices w)) ∧
          Forall (λ x, Snap.coin_id x ≠ None) (snapshot_report (prices w)))
    as [Hsnap Hnonnull].
  { unfold snapshot_report. rewrite merge_sort_Permutation.
    set (P := λ r : Prices.row,
           sql_eq (Some (Prices.ts_utc r)) (sql_max (Prices.ts_utc <$> prices w))
           = Some true).
    split.
    - rewrite <- list_fmap_compose.
      destruct (sql_max (Prices.ts_utc <$> prices w)) as [T|] eqn:Hmax.
      + assert (Snap.coin_id ∘ select_columns <$> filter P (prices w)
                = snd <$> (Prices.key <$> filter P (prices w))) as ->.
        { rewrite <- list_fmap_compose. done. }
        apply (NoDup_snd_same_fst T).
        * rewrite Forall_fmap. apply Forall_forall.
          intros r [Hr _]%list_elem_of_filter. unfold P in Hr; simpl in *.
          injection Hr as Hr. by apply String.eqb_eq in Hr.
        * eapply sublist_NoDup; [exact Hnodup|].
          apply fmap_sublist, sublist_filter.
      + rewrite filter_none; [constructor|].
        apply Forall_forall. by intros r _.
    - rewrite Forall_fmap. apply Forall_forall.
      intros r [_ Hr]%list_elem_of_filter. simpl.
      by apply (proj1 (Forall_forall _ _) Hall). }
  unfold movers_report. rewrite !sort_values_Permutation.
  split; [done|]. split; [done|]. by apply Forall_app.
Qed.

Lemma export_one_row_per_coin_witness :
  table_ok (prices seeded_world) ∧
  NoDup (Snap.coin_id <$> snapshot_report (prices seeded_world)).
Proof.
  assert (table_ok (prices seeded_world)) as Hok.
  { split; [|by repeat constructor].
    apply (bool_decide_unpack _). vm_compute. exact I. }
  split; [exact Hok|].
  exact (proj1 (proj2 (proj2 (export_one_row_per_coin seeded_world Hok)))).
Defined.

Lemma snapshot_of_new_batch table df T :
  df ≠ [] →
  Forall (λ r, Prices.ts_utc r = T) df →
  Forall (λ r, String.le (Prices.ts_utc r) T ∧ Prices.ts_utc r ≠ T) table →
  snapshot_report (table ++ df) ≡ₚ select_columns <$> df.
Proof.
  intros Hne Hbatch Hold. rewrite (snapshot_report_latest _ T).
  - rewrite filter_app, filter_none, filter_all; [done|done|].
    eapply Forall_impl; [exact Hold|]. by intros r [_ ?].
  - apply sql_max_greatest.
    + destruct df as [|r rest]; [done|]. apply Forall_cons in Hbatch as [<- _].
      rewrite fmap_app. apply elem_of_app. right. by left.
    + intros t (r & -> & Hr)%list_elem_of_fmap.
      apply elem_of_app in Hr as [Hr|Hr].
      * by apply (proj1 (Forall_forall _ _) Hold) in Hr as [? _].
      * by apply (proj1 (Forall_forall _ _) Hbatch) in Hr as ->.
Qed.

(** X7: after a batch whose rows all carry a timestamp later than every
    timestamp of the table has been loaded, the export shows that batch and
    nothing else: both reports are the rows of the batch, up to order. *)
Theorem load_then_export_shows_batch w df T w1 :
  load_into_sqlite df w = (inr tt, w1) →
  df ≠ [] →
  Forall (λ r, Prices.ts_utc r = T) df →
  Forall (λ r, String.le (Prices.ts_utc r) T ∧ Prices.ts_utc r ≠ T) (prices w) →
  files (snd (export_snapshots w1)) !! snap_path =
    Some (to_csv (snapshot_report (prices w1))) ∧
  files (snd (export_snapshots w1)) !! movers_path =
    Some (to_csv (movers_report (prices w1))) ∧
  snapshot_report (prices w1) ≡ₚ select_columns <$> df ∧
  movers_report (prices w1) ≡ₚ select_columns <$> df.
Proof.
  intros Hload Hne Hbatch Hold.
  apply load_into_sqlite_return in Hload.
  split; [apply exported_snapshot|]. split; [apply exported_movers|].
  assert (snapshot_report (prices w1) ≡ₚ select_columns <$> df) as Hsnap
    by (rewrite Hload; by apply (snapshot_of_new_batch _ _ T)).
  split; [done|]. unfold movers_report. by rewrite sort_values_Permutation.
Qed.

Lemma load_then_export_shows_batch_witness :
  snapshot_report (prices (snd (load_into_sqlite [btc; eth]
                                  (set_prices [eth_before] fresh_world))))
    ≡ₚ select_columns <$> [btc; eth].
Proof.
  apply (load_then_export_shows_batch
           (set_prices [eth_before] fresh_world) [btc; eth]
           "2024-01-01 00:00:00+0000").
  - vm_compute. reflexivity.
  - done.
  - by repeat constructor.
  - by repeat constructor.
Defined.

(** X8: an export overwrites the two report files and nothing else.  What it
    writes is decided by the table alone, whatever the files held before;
    every other file is left as it was; and a second export in a row changes
    no file. *)
Theorem export_overwrites_reports w :
  (∀ v, prices v = prices w →
        files (snd (export_snapshots v)) !! snap_path =
          files (snd (export_snapshots w)) !! snap_path ∧
        files (snd (export_snapshots v)) !! movers_path =
          files (snd (export_snapshots w)) !! movers_path) ∧
  (∀ path, path ≠ snap_path → path ≠ movers_path →
           files (snd (export_snapshots w)) !! path = files w !! path) ∧
  files (snd (export_snapshots (snd (export_snapshots w)))) =
    files (snd (export_snapshots w)).
Proof.
  split; [|split].
  - intros v Hv. rewrite !exported_snapshot, !exported_movers. by rewrite Hv.
  - intros path Hsnap Hmovers. rewrite export_snapshots_unfold; simpl.
    by rewrite !lookup_insert_ne.
  - rewrite !export_snapshots_unfold; simpl. apply map_eq. intros path.
    destruct (decide (path = movers_path)) as [->|Hmovers].
    { by rewrite !lookup_insert_eq. }
    rewrite !(lookup_insert_ne _ movers_path) by done.
    destruct (decide (path = snap_path)) as [->|Hsnap].
    { by rewrite !lookup_insert_eq. }
    by rewrite !lookup_insert_ne.
Qed.

Lemma export_overwrites_reports_witness :
  files (snd (export_snapshots (snd (export_snapshots seeded_world))))
    !! "data/warehouse/notes.txt" = None.
Proof.
  destruct (export_overwrites_reports (snd (export_snapshots seeded_world)))
    as (_ & Hother & _).
  rewrite Hother by done.
  destruct (export_overwrites_reports seeded_world) as (_ & Hother' & _).
  by rewrite Hother'.
Defined.

(** ** The order of timestamps *)

Lemma string_length_app (a b : string) :
  String.length (a ++ b) = String.length a + String.length b.
Proof. induction a as [|c a IH]; simpl; [done|]. by rewrite IH. Qed.

Lemma string_compare_refl (a : string) : String.compare a a = Eq.
Proof.
  induction a as [|c a IH]; simpl; [done|].
  unfold Ascii.compare. by rewrite N.compare_refl.
Qed.

(** Comparing two strings that start with parts of equal length compares
    the parts first. *)
Lemma string_compare_app (a a' b b' : string) :
  String.length a = String.length a' →
  String.compare (a ++ b) (a' ++ b') =
    match String.compare a a' with
    | Eq => String.compare b b'
    | c => c
    end.
Proof.
  revert a'. induction a as [|c a IH]; intros [|c' a']; simpl; try done.
  intros [= Hlen]. destruct (Ascii.compare c c'); [|done..]. by apply IH.
Qed.

Lemma string_compare_app_same (sep a b : string) :
  String.compare (sep ++ a) (sep ++ b) = String.compare a b.
Proof. rewrite string_compare_app by done. by rewrite string_compare_refl. Qed.

Lemma pad2_facts n m :
  (n < 100)%nat → (m < 100)%nat →
  String.length (pad 2 n) = 2 ∧
  String.compare (pad 2 n) (pad 2 m) = Nat.compare n m.
Proof.
  assert (Forall (λ n, String.length (pad 2 n) = 2 ∧
            Forall (λ m, String.compare (pad 2 n) (pad 2 m) = Nat.compare n m)
                   (seq 0 100)) (seq 0 100)) as Hall.
  { apply (bool_decide_unpack _). vm_compute. exact I. }
  intros Hn Hm. rewrite Forall_forall in Hall.
  destruct (Hall n) as [Hlen Hcmp]; [apply elem_of_seq; lia|].
  split; [done|]. rewrite Forall_forall in Hcmp.
  apply Hcmp, elem_of_seq. lia.
Qed.

Lemma pad4_split n :
  (n < 100 * 100)%nat → pad 4 n = (pad 2 (n / 100) ++ pad 2 (n mod 100))%string.
Proof.
  assert (Forall (λ n, pad 4 n = (pad 2 (n / 100) ++ pad 2 (n mod 100))%string)
                 (seq 0 (100 * 100))) as Hall.
  { apply (bool_decide_unpack _). vm_compute. exact I. }
  intros Hn. rewrite Forall_forall in Hall. apply Hall, elem_of_seq. lia.
Qed.

Lemma pad4_facts n m :
  (n < 100 * 100)%nat → (m < 100 * 100)%nat →
  String.length (pad 4 n) = 4 ∧
  String.compare (pad 4 n) (pad 4 m) = Nat.compare n m.
Proof.
  intros Hn Hm. rewrite !pad4_split by done.
  pose proof (Nat.div_mod_eq n 100) as Hdn.
  pose proof (Nat.div_mod_eq m 100) as Hdm.
  pose proof (Nat.mod_upper_bound n 100 ltac:(done)) as Hrn.
  pose proof (Nat.mod_upper_bound m 100 ltac:(done)) as Hrm.
  assert (n / 100 < 100)%nat as Hqn by (apply Nat.Div0.div_lt_upper_bound; lia).
  assert (m / 100 < 100)%nat as Hqm by (apply Nat.Div0.div_lt_upper_bound; lia).
  destruct (pad2_facts (n / 100) (m / 100) Hqn Hqm) as [Hlq Hcq].
  destruct (pad2_facts (n mod 100) (m mod 100) Hrn Hrm) as [Hlr Hcr].
  destruct (pad2_facts (m / 100) (m / 100) Hqm Hqm) as [Hlq' _].
  split; [rewrite string_length_app; lia|].
  rewrite string_compare_app by lia. rewrite Hcq, Hcr.
  destruct (Nat.compare_spec (n / 100) (m / 100));
    destruct (Nat.compare_spec (n mod 100) (m mod 100));
    symmetry; first [apply Nat.compare_eq_iff | apply Nat.compare_lt_iff
                    | apply Nat.compare_gt_iff]; lia.
Qed.

(** X9: timestamps order as instants do.  For clock readings in the calendar
    ranges, [strftime] gives a string of 24 characters, comparing two such
    strings byte-wise (as [MAX(ts_utc)] does) is comparing the instants field
    by field from the year down, and different instants get different
    strings. *)
Theorem strftime_order d1 d2 :
  in_range d1 → in_range d2 →
  String.length (strftime d1) = 24 ∧
  String.compare (strftime d1) (strftime d2) = lex_compare (fields d1) (fields d2) ∧
  (String.le (strftime d1) (strftime d2) ↔
     lex_compare (fields d1) (fields d2) ≠ Gt) ∧
  (strftime d1 = strftime d2 → d1 = d2).
Proof.
  intros (Hy1 & Hmo1 & Hd1 & Hh1 & Hmi1 & Hs1) (Hy2 & Hmo2 & Hd2 & Hh2 & Hmi2 & Hs2).
  destruct d1 as [y1 mo1 d1 h1 mi1 s1], d2 as [y2 mo2 d2 h2 mi2 s2].
  cbn [year month day hour minute second] in *.
  destruct (pad4_facts y1 y2) as [Hly Hcy]; [lia..|].
  destruct (pad4_facts y2 y2) as [Hly' _]; [lia..|].
  destruct (pad2_facts mo1 mo2) as [Hlmo Hcmo]; [lia..|].
  destruct (pad2_facts mo2 mo2) as [Hlmo' _]; [lia..|].
  destruct (pad2_facts d1 d2) as [Hld Hcd]; [lia..|].
  destruct (pad2_facts d2 d2) as [Hld' _]; [lia..|].
  destruct (pad2_facts h1 h2) as [Hlh Hch]; [lia..|].
  destruct (pad2_facts h2 h2) as [Hlh' _]; [lia..|].
  destruct (pad2_facts mi1 mi2) as [Hlmi Hcmi]; [lia..|].
  destruct (pad2_facts mi2 mi2) as [Hlmi' _]; [lia..|].
  destruct (pad2_facts s1 s2) as [Hls Hcs]; [lia..|].
  destruct (pad2_facts s2 s2) as [Hls' _]; [lia..|].
  assert (String.compare
            (strftime (Datetime y1 mo1 d1 h1 mi1 s1))
            (strftime (Datetime y2 mo2 d2 h2 mi2 s2)) =
          lex_compare [y1; mo1; d1; h1; mi1; s1] [y2; mo2; d2; h2; mi2; s2])
    as Hcompare.
  { unfold strftime; simpl.
    rewrite string_compare_app
      by (rewrite !string_length_app; simpl; rewrite ?string_length_app; simpl; lia).
    rewrite (string_compare_app (pad 4 y1)) by lia. rewrite Hcy.
    destruct (Nat.compare y1 y2); [|done..].
    rewrite string_compare_app_same, (string_compare_app (pad 2 mo1)) by lia.
    rewrite Hcmo. destruct (Nat.compare mo1 mo2); [|done..].
    rewrite string_compare_app_same, (string_compare_app (pad 2 d1)) by lia.
    rewrite Hcd. destruct (Nat.compare d1 d2); [|done..].
    rewrite string_compare_app_same, (string_compare_app (pad 2 h1)) by lia.
    rewrite Hch. destruct (Nat.compare h1 h2); [|done..].
    rewrite string_compare_app_same, (string_compare_app (pad 2 mi1)) by lia.
    rewrite Hcmi. destruct (Nat.compare mi1 mi2); [|done..].
    rewrite string_compare_app_same.
    rewrite Hcs. by destruct (Nat.compare s1 s2). }
  split; [|split; [exact Hcompare|split]].
  - unfold strftime; simpl.
    rewrite !string_length_app; simpl. lia.
  - unfold String.le, String.leb. rewrite Hcompare.
    unfold fields. cbn [year month day hour minute second].
    destruct (lex_compare _ _); simpl; intuition congruence.
  - intros Heq. rewrite Heq, string_compare_refl in Hcompare.
    simpl in Hcompare.
    destruct (Nat.compare_spec y1 y2); try done.
    destruct (Nat.compare_spec mo1 mo2); try done.
    destruct (Nat.compare_spec d1 d2); try done.
    destruct (Nat.compare_spec h1 h2); try done.
    destruct (Nat.compare_spec mi1 mi2); try done.
    destruct (Nat.compare_spec s1 s2); try done.
    by subst.
Qed.

Lemma strftime_order_witness :
  in_range new_year_eve ∧ in_range new_year ∧
  String.compare (strftime new_year_eve) (strftime new_year) = Lt.
Proof.
  assert (in_range new_year_eve) as H1 by (unfold in_range; simpl; lia).
  assert (in_range new_year) as H2 by (unfold in_range; simpl; lia).
  split; [exact H1|]. split; [exact H2|].
  destruct (strftime_order new_year_eve new_year H1 H2) as (_ & -> & _).
  reflexivity.
Defined.

(** ** Runs of the program *)

Lemma init_db_unfold w :
  init_db w =
    (inr tt,
     {| clock := clock w; ticks := ticks w; prices := prices w;
        files := files w;
        log := log w ++ [(INFO, ("DB ready: " ++ DB_PATH)%string)] |}).
Proof. by destruct w. Qed.

Lemma run_analyze_spec w :
  ∃ w', run_analyze w = (Completed, w') ∧
        prices w' = prices w ∧ ticks w' = ticks w ∧
        files w' = files (snd (export_snapshots w)).
Proof.
  unfold run_analyze, bind. rewrite export_snapshots_unfold. by eexists.
Qed.

Lemma load_into_sqlite_frame df w :
  files (snd (load_into_sqlite df w)) = files w ∧
  clock (snd (load_into_sqlite df w)) = clock w ∧
  ticks (snd (load_into_sqlite df w)) = ticks w.
Proof.
  destruct (load_into_sqlite df w) as [[e|[]] w'] eqn:Hload; simpl.
  - by apply load_into_sqlite_raise in Hload as [-> _].
  - destruct df as [|r rest]; [by injection Hload as <-|].
    unfold load_into_sqlite, bind, with_connection in Hload.
    destruct (to_sql (r :: rest) w) as [[e|[]] w1] eqn:Hsql; [done|].
    apply to_sql_return in Hsql as ->. by injection Hload as <-.
Qed.

Lemma run_fetch_spec response w e w' :
  run_fetch response w = Some (e, w') →
  prices w `prefix_of` prices w' ∧ files w' = files w ∧
  (e ≠ Completed → prices w' = prices w) ∧
  (e = RequestFailed ↔ response = None).
Proof.
  unfold run_fetch. rewrite init_db_unfold.
  destruct response as [payload|]; [|by intros [= <- <-]].
  rewrite normalize_rows_unfold; simpl.
  destruct (normalize_loop _ payload []) as [e0|frame]; [by intros [= <- <-]|].
  destruct (mapM bind_row frame) as [df|]; [|done]. simpl.
  unfold bind.
  match goal with |- context [load_into_sqlite df ?v] => set (w2 := v) end.
  destruct (load_into_sqlite df w2) as [[e0|[]] w3] eqn:Hload; simpl.
  - apply load_into_sqlite_raise in Hload as [-> _]. by intros [= <- <-].
  - apply load_into_sqlite_return in Hload as Hprices.
    pose proof (load_into_sqlite_frame df w2) as (Hfiles & _).
    rewrite Hload in Hfiles; simpl in Hfiles.
    intros [= <- <-]; simpl. rewrite Hprices, Hfiles.
    split; [by apply prefix_app_r|]. done.
Qed.

Lemma real_column_real_or_null (field : option value) :
  real_or_null field →
  is_Some (real_column (default VNone field)) ∧
  is_Some (real_column (py_or (default VNone field) (VNum 0))).
Proof.
  destruct field as [[| |q| | |]|]; simpl; try done; try (by intros _; split).
  intros Hq. rewrite Hq. split; [done|]. unfold py_or; simpl.
  destruct (Qeq_bool q 0); simpl; [done|]. by rewrite Hq.
Qed.

Lemma normalize_loop_rejects now payload : ∀ acc,
  forallb accepts payload = false →
  normalize_loop now payload acc = inl AttributeError.
Proof.
  induction payload as [|item rest IH]; intros acc; simpl; [done|].
  pose proof (normalize_item_accepts now item) as Hitem.
  destruct (normalize_item now item) as [e|r]; simpl.
  - by destruct Hitem as [-> _].
  - rewrite Hitem; simpl. apply IH.
Qed.

Lemma text_column_text_or_null (field : option value) :
  text_or_null field → is_Some (text_column (default VNone field)).
Proof. by destruct field as [[| | |s| |]|]. Qed.

Lemma normalize_item_storable now item :
  storable_record item →
  ∃ r row, normalize_item now item = inr r ∧ bind_row r = Some row.
Proof.
  destruct item as [| | | | |d]; try done.
  intros (Hid & Hsym & Hprice & Hcap & Hvol & Hchange).
  rewrite normalize_item_mapping, (symbol_text_or_null _ Hsym); simpl.
  destruct (text_column_text_or_null _ Hid) as [id Hi].
  destruct (real_column_real_or_null _ Hprice) as [[price Hp] _].
  destruct (real_column_real_or_null _ Hcap) as [[cap Hc] _].
  destruct (real_column_real_or_null _ Hvol) as [[vol Hv] _].
  destruct (real_column_real_or_null _ Hchange) as [_ [change Hch]].
  eexists _, _. split; [reflexivity|].
  unfold bind_row; simpl. by rewrite Hi, Hp, Hc, Hv, Hch.
Qed.

Lemma normalize_loop_storable now payload :
  Forall storable_record payload →
  ∃ frame df, normalize_loop now payload [] = inr frame ∧
              mapM bind_row frame = Some df.
Proof.
  intros Hall.
  assert (∃ frame df,
    Forall2 (λ item r, normalize_item now item = inr r) payload frame ∧
    Forall2 (λ r row, bind_row r = Some row) frame df)
    as (frame & df & Hnorm & Hbind).
  { induction Hall as [|item rest Hitem _ (frame & df & H1 & H2)].
    - exists [], []. split; constructor.
    - destruct (normalize_item_storable now item Hitem) as (r & row & Hr & Hrow).
      exists (r :: frame), (row :: df). split; by constructor. }
  exists frame, df. split; [|by apply mapM_Some_2].
  apply normalize_loop_spec. by exists frame.
Qed.

Lemma run_fetch_covered response w :
  covered response → ∃ e w', run_fetch response w = Some (e, w').
Proof.
  intros Hcov. unfold run_fetch. rewrite init_db_unfold.
  destruct response as [payload|]; [|by eexists _, _].
  rewrite normalize_rows_unfold; simpl.
  destruct Hcov as [Hrej|Hall].
  - rewrite normalize_loop_rejects by done. by eexists _, _.
  - destruct (normalize_loop_storable
                (strftime (clock w (ticks w))) payload Hall)
      as (frame & df & -> & ->). simpl.
    destruct (bind _ _ _) as [[e|[]] w']; by eexists _, _.
Qed.

Lemma create_if_not_exists_frame d :
  prices (create_if_not_exists d) = rows d ∧
  files (create_if_not_exists d) = files (world_of d) ∧
  ticks (create_if_not_exists d) = ticks (world_of d).
Proof. by destruct d. Qed.

Lemma db_run_analyze_table w :
  ∃ w', Db.run_analyze (Table w) = (Completed, Table w') ∧
        prices w' = prices w ∧ ticks w' = ticks w ∧
        files w' = files (snd (export_snapshots w)).
Proof.
  unfold Db.run_analyze, Db.export_snapshots.
  rewrite export_snapshots_unfold; simpl. by eexists.
Qed.

Lemma db_run_analyze_no_table w :
  Db.run_analyze (NoTable w) =
    (Uncaught (DatabaseError NO_SUCH_TABLE), NoTable w).
Proof. reflexivity. Qed.

(** X10: a run that does not complete leaves the rows of the table and the
    files exactly as they were, from any state of the database file and on
    every answer of [covered].  [analyze] fails only on a database without
    the table, with the no-such-table error and nothing changed; under
    [fetch] and [all] no report is written after the failure, and the run
    ends as a failed request exactly when the request raised. *)
Theorem main_failure_changes_nothing cmd response d :
  covered response →
  ∃ e d',
    Db.main cmd response d = Some (e, d') ∧
    (e ≠ Completed →
       rows d' = rows d ∧
       files (world_of d') = files (world_of d) ∧
       (cmd = Analyze →
          d' = d ∧ e = Uncaught (DatabaseError NO_SUCH_TABLE) ∧
          ∃ w, d = NoTable w) ∧
       (cmd ≠ Analyze → (e = RequestFailed ↔ response = None))).
Proof.
  intros Hcov.
  destruct (run_fetch_covered response (create_if_not_exists d) Hcov)
    as (e1 & w1 & Hfetch).
  pose proof (run_fetch_spec _ _ _ _ Hfetch) as (_ & Hfiles & Hprices & Hreq).
  destruct (create_if_not_exists_frame d) as (Hp0 & Hf0 & _).
  assert (e1 ≠ Completed →
          rows (Table w1) = rows d ∧
          files (world_of (Table w1)) = files (world_of d) ∧
          (e1 = RequestFailed ↔ response = None)) as Hfail.
  { intros Hne. simpl. by rewrite Hprices, Hfiles. }
  unfold Db.main, Db.run_fetch. destruct cmd; simpl.
  - rewrite Hfetch; simpl. exists e1, (Table w1).
    split; [by destruct e1|]. intros Hne.
    destruct (Hfail Hne) as (? & ? & ?). done.
  - destruct d as [w|w].
    + rewrite db_run_analyze_no_table. eexists _, _. split; [reflexivity|].
      intros _. repeat split; try done. by exists w.
    + destruct (db_run_analyze_table w) as (w' & -> & _).
      eexists _, _. split; [reflexivity|]. done.
  - rewrite Hfetch; simpl. destruct e1 as [|e0|].
    + destruct (db_run_analyze_table w1) as (w' & -> & _).
      eexists _, _. split; [reflexivity|]. done.
    + eexists _, _. split; [reflexivity|]. intros Hne.
      destruct (Hfail Hne) as (? & ? & ?). done.
    + eexists _, _. split; [reflexivity|]. intros Hne.
      destruct (Hfail Hne) as (? & ? & ?). done.
Qed.

Lemma main_failure_changes_nothing_witness :
  covered (Some missing_id_payload) ∧
  ∃ d', Db.main All (Some missing_id_payload) (NoTable fresh_world)
          = Some (Uncaught (IntegrityError NOT_NULL_coin_id), d') ∧
        rows d' = [] ∧ files (world_of d') = ∅.
Proof.
  assert (covered (Some missing_id_payload)) as Hcov.
  { right. constructor; [|constructor]. vm_compute. tauto. }
  split; [exact Hcov|].
  destruct (main_failure_changes_nothing All (Some missing_id_payload)
              (NoTable fresh_world) Hcov) as (e & d' & Hmain & Hfail).
  assert (Db.main All (Some missing_id_payload) (NoTable fresh_world)
          = Some (Uncaught (IntegrityError NOT_NULL_coin_id),
                  snd (default (Completed, NoTable fresh_world)
                         (Db.main All (Some missing_id_payload)
                            (NoTable fresh_world))))) as Hrun
    by (vm_compute; reflexivity).
  rewrite Hrun in Hmain. injection Hmain as <- <-.
  eexists. split; [exact Hrun|].
  destruct Hfail as (Hrows & Hfiles & _); [done|]. by split.
Defined.

(** X11: what each command can touch, from any state of the database file
    and on every answer of [covered].  However the run ends, the rows the
    table had are still there, in place; [fetch] never writes a file;
    [analyze] never changes the rows, never reads the clock, does not depend
    on the request, and completes exactly when the table exists. *)
Theorem main_frame cmd response d :
  covered response →
  ∃ e d',
    Db.main cmd response d = Some (e, d') ∧
    rows d `prefix_of` rows d' ∧
    (cmd = Fetch → files (world_of d') = files (world_of d)) ∧
    (cmd = Analyze →
       rows d' = rows d ∧ ticks (world_of d') = ticks (world_of d) ∧
       (e = Completed ↔ ∃ w, d = Table w) ∧
       ∀ other, Db.main Analyze other d = Some (e, d')).
Proof.
  intros Hcov.
  destruct (run_fetch_covered response (create_if_not_exists d) Hcov)
    as (e1 & w1 & Hfetch).
  pose proof (run_fetch_spec _ _ _ _ Hfetch) as (Hprefix & Hfiles & _).
  destruct (create_if_not_exists_frame d) as (Hp0 & Hf0 & _).
  rewrite Hp0 in Hprefix. rewrite Hf0 in Hfiles.
  unfold Db.main, Db.run_fetch. destruct cmd; simpl.
  - rewrite Hfetch; simpl. exists e1, (Table w1).
    split; [by destruct e1|]. done.
  - destruct d as [w|w].
    + rewrite db_run_analyze_no_table. eexists _, _. split; [reflexivity|].
      split; [done|]. split; [done|]. intros _.
      repeat split; try done. by intros [w' ?].
    + destruct (db_run_analyze_table w) as (w' & -> & Hp & Ht & _).
      eexists _, _. split; [reflexivity|]. simpl. rewrite Hp.
      split; [done|]. split; [done|]. intros _.
      repeat split; try done. by exists w.
  - rewrite Hfetch; simpl. destruct e1 as [|e0|].
    + destruct (db_run_analyze_table w1) as (w' & -> & Hp & _).
      eexists _, _. split; [reflexivity|]. simpl. by rewrite Hp.
    + eexists _, _. split; [reflexivity|]. done.
    + eexists _, _. split; [reflexivity|]. done.
Qed.

Lemma main_frame_witness :
  covered None ∧
  ∃ d', Db.main Analyze None (Table seeded_world) = Some (Completed, d') ∧
        rows d' = prices seeded_world.
Proof.
  split; [exact I|].
  destruct (main_frame Analyze None (Table seeded_world) I)
    as (e & d' & Hmain & _ & _ & Hanalyze).
  destruct (Hanalyze eq_refl) as (Hrows & _ & Hcompleted & _).
  assert (e = Completed) as -> by (apply Hcompleted; by eexists).
  by exists d'.
Defined.

Lemma load_into_sqlite_returns w df :
  insertable (prices w) df → ∃ w', load_into_sqlite df w = (inr tt, w').
Proof.
  intros Hok. destruct df as [|r rest]; [by eexists|].
  apply to_sql_returns_iff in Hok as [w1 Hsql].
  unfold load_into_sqlite, bind, with_connection. rewrite Hsql. by eexists.
Qed.

Lemma normalize_item_typed now item :
  typed_record item →
  ∃ r row, normalize_item now item = inr r ∧ bind_row r = Some row ∧
           Prices.ts_utc row = now ∧ Prices.coin_id row = record_id item ∧
           record_id item ≠ None.
Proof.
  destruct item as [| | | | |d]; try done.
  intros ([s Hid] & Hsym & Hprice & Hcap & Hvol & Hchange).
  rewrite normalize_item_mapping, (symbol_text_or_null _ Hsym); simpl.
  destruct (real_column_real_or_null _ Hprice) as [[price Hp] _].
  destruct (real_column_real_or_null _ Hcap) as [[cap Hc] _].
  destruct (real_column_real_or_null _ Hvol) as [[vol Hv] _].
  destruct (real_column_real_or_null _ Hchange) as [_ [change Hch]].
  eexists _, _. split; [reflexivity|].
  unfold bind_row; simpl. rewrite Hid, Hp, Hc, Hv, Hch; simpl.
  split; [reflexivity|]. done.
Qed.

Lemma normalize_loop_typed now payload :
  Forall typed_record payload →
  ∃ frame df,
    normalize_loop now payload [] = inr frame ∧
    mapM bind_row frame = Some df ∧
    Forall2 (λ item row, Prices.key row = (now, record_id item)) payload df ∧
    Forall (λ row, Prices.ts_utc row = now ∧ Prices.coin_id row ≠ None) df.
Proof.
  intros Htyped.
  assert (∃ frame df,
    Forall2 (λ item r, normalize_item now item = inr r) payload frame ∧
    Forall2 (λ r row, bind_row r = Some row) frame df ∧
    Forall2 (λ item row, Prices.key row = (now, record_id item)) payload df ∧
    Forall (λ row, Prices.ts_utc row = now ∧ Prices.coin_id row ≠ None) df)
    as (frame & df & Hnorm & Hbind & Hkeys & Hrows).
  { induction Htyped as [|item rest Hitem _ (frame & df & H1 & H2 & H3 & H4)].
    - exists [], []. by repeat split; constructor.
    - destruct (normalize_item_typed now item Hitem)
        as (r & row & Hr & Hrow & Hts & Hid & Hsome).
      exists (r :: frame), (row :: df).
      repeat split; constructor; try done.
      + unfold Prices.key. by rewrite Hts, Hid.
      + split; [done|]. by rewrite Hid. }
  exists frame, df. split; [|split; [by apply mapM_Some_2|done]].
  apply normalize_loop_spec. by exists frame.
Qed.

(** X12: a complete run on a well-typed answer.  When every record has the
    documented field types with numbers the table keeps as they are
    ([typed_record]), no coin occurs twice, and the clock reading is later
    than every timestamp of the table, the command [all] completes:
    one row per record is appended, all stamped with the reading, and both
    reports list exactly the coins of the answer. *)
Theorem main_all_end_to_end payload w :
  let now := strftime (clock w (ticks w)) in
  payload ≠ [] →
  Forall typed_record payload →
  NoDup (record_id <$> payload) →
  Forall (λ r, String.le (Prices.ts_utc r) now ∧ Prices.ts_utc r ≠ now) (prices w) →
  ∃ w' df,
    main All (Some payload) w = Some (Completed, w') ∧
    prices w' = prices w ++ df ∧
    length df = length payload ∧
    Forall (λ r, Prices.ts_utc r = now) df ∧
    Prices.coin_id <$> df = record_id <$> payload ∧
    files w' !! snap_path = Some (to_csv (snapshot_report (prices w'))) ∧
    files w' !! movers_path = Some (to_csv (movers_report (prices w'))) ∧
    snapshot_report (prices w') ≡ₚ select_columns <$> df ∧
    movers_report (prices w') ≡ₚ select_columns <$> df.
Proof.
  intros now Hne Htyped Hnodup Hold.
  destruct (normalize_loop_typed now payload Htyped)
    as (frame & df & Hloop & Hmap & Hkeys & Hrows).
  assert (df ≠ []) as Hdf.
  { intros ->. apply Forall2_length in Hkeys. by destruct payload. }
  assert (Prices.key <$> df = (λ item, (now, record_id item)) <$> payload) as Hk.
  { clear -Hkeys. induction Hkeys as [|item row payload df Hrow _ IH]; [done|].
    rewrite !fmap_cons. by f_equal. }
  assert (Prices.coin_id <$> df = record_id <$> payload) as Hids.
  { clear -Hkeys. induction Hkeys as [|item row payload df Hrow _ IH]; [done|].
    rewrite !fmap_cons. f_equal; [|done]. by injection Hrow as _ ->. }
  set (w2 := {| clock := clock w; ticks := S (ticks w); prices := prices w;
                files := files w;
                log := log w ++ [(INFO, ("DB ready: " ++ DB_PATH)%string)] |}).
  assert (insertable (prices w2) df) as Hins.
  { split; [|split].
    - eapply Forall_impl; [exact Hrows|]. by intros r [_ ?].
    - rewrite Hk, (list_fmap_compose record_id (pair now)).
      apply (NoDup_fmap_2 _), Hnodup.
    - intros r Hr (r' & Hkey & Hr')%list_elem_of_fmap. simpl in Hr'.
      apply (proj1 (Forall_forall _ _) Hrows) in Hr as [Hts _].
      apply (proj1 (Forall_forall _ _) Hold) in Hr' as [_ Hold'].
      apply Hold'. injection Hkey as <- _. done. }
  destruct (load_into_sqlite_returns w2 df Hins) as [w3 Hload].
  pose proof (load_into_sqlite_return _ _ _ Hload) as Hprices.
  destruct (run_analyze_spec
              (snd (emit INFO "Fetch step complete ✅" w3)))
    as (w' & Hrun & Hp' & _ & Hf').
  exists w', df.
  assert (prices w' = prices w ++ df) as Hfinal by (rewrite Hp'; exact Hprices).
  split.
  { unfold main; simpl. unfold run_fetch.
    rewrite init_db_unfold, normalize_rows_unfold; simpl.
    fold now. rewrite Hloop, Hmap; simpl. unfold bind. fold w2.
    rewrite Hload; simpl. exact (f_equal Some Hrun). }
  split; [done|]. split; [by apply Forall2_length in Hkeys|].
  split; [eapply Forall_impl; [exact Hrows|]; by intros r [? _]|].
  split; [done|].
  assert (snapshot_report (prices w') ≡ₚ select_columns <$> df) as Hsnap.
  { rewrite Hfinal. apply (snapshot_of_new_batch _ _ now); [done| |done].
    eapply Forall_impl; [exact Hrows|]. by intros r [? _]. }
  simpl in Hp'.
  split; [by rewrite Hf', exported_snapshot, Hp'|].
  split; [by rewrite Hf', exported_movers, Hp'|].
  split; [done|]. unfold movers_report. by rewrite sort_values_Permutation.
Qed.

Lemma main_all_end_to_end_witness :
  ∃ w' df,
    main All (Some sample_payload) (set_prices [eth_before] fresh_world)
      = Some (Completed, w') ∧
    prices w' = [eth_before] ++ df ∧
    Prices.coin_id <$> df = [Some "bitcoin"; Some "ethereum"].
Proof.
  destruct (main_all_end_to_end sample_payload (set_prices [eth_before] fresh_world))
    as (w' & df & Hmain & Hprices & _ & _ & Hids & _).
  - done.
  - constructor; [|constructor; [|constructor]].
    + split; [by exists "bitcoin"|]. vm_compute. tauto.
    + split; [by exists "ethereum"|]. vm_compute. tauto.
  - apply (bool_decide_unpack _). vm_compute. exact I.
  - constructor; [|constructor]. split; [vm_compute; exact I|].
    vm_compute. discriminate.
  - exists w', df. split; [exact Hmain|]. split; [exact Hprices|].
    rewrite Hids. vm_compute. reflexivity.
Defined.

(** X13: a run on an empty answer.  [all] completes, the table is unchanged,
    the loader's warning is logged between the records of the two steps, and
    the reports are written again from the rows the table already had. *)
Theorem main_all_empty_answer w :
  ∃ w', main All (Some []) w = Some (Completed, w') ∧
        prices w' = prices w ∧
        log w' = log w ++
          [(INFO, "DB ready: data/warehouse/crypto_prices.db");
           (WARNING, "No rows to load.");
           (INFO, "Fetch step complete ✅");
           (INFO, "Wrote data/warehouse/latest_snapshot.csv");
           (INFO, "Wrote data/warehouse/top_movers_24h.csv");
           (INFO, "Analyze step complete ✅")] ∧
        files w' !! snap_path = Some (to_csv (snapshot_report (prices w))) ∧
        files w' !! movers_path = Some (to_csv (movers_report (prices w))).
Proof.
  unfold main, run_fetch.
  rewrite init_db_unfold, normalize_rows_unfold; simpl.
  unfold bind, emit; simpl. unfold run_analyze, bind.
  rewrite export_snapshots_unfold; simpl.
  eexists. split; [reflexivity|]. simpl. split; [done|]. split.
  - by rewrite <- !app_assoc.
  - split; [by rewrite lookup_insert_ne, lookup_insert_eq|].
    by rewrite lookup_insert_eq.
Qed.

(** [upper] on symbols with and without characters outside ASCII. *)
Example upper_examples :
  upper "btc" = "BTC" ∧ upper "é" = "É" ∧ upper "straße" = "STRASSE" ∧
  upper "ﬁl-1" = "FIL-1" ∧ upper "中 x" = "中 X".
Proof. repeat split; vm_compute; reflexivity. Qed.
